(** * Marching cubes: a shallow embedding of [marching_cubes.py]

    The development follows the Python module function by function:
    [_lookup_configuration], [_get_vertex_positions], [marching_cubes],
    [compute_normals] and [writePLY].

    Conventions of the embedding.
    - Python [int] is [Z]; bit operations are [Z.lor] and [Z.testbit].
    - Python and numpy floating point numbers are the exact rationals [Q]:
      rounding is abstracted, so every numeric statement below is a statement
      of exact arithmetic.  Orders and zero tests are [Qlt], [Qle] and [Qeq];
      where a statement gives a number with [=], it is the very term the
      code computes.
    - A raised exception is a value [Raise e] of the [result] monad.
    - A Python list is a [list]; subscripting follows Python, including
      negative subscripts, which count from the end of the list.
    - The two foreign functions the module calls are modelled from their
      documentation: [numpy.arange] as [np_arange] and [np_arange_int], and
      [glm.normalize] as a parameter of [compute_normals]. *)

From Stdlib Require Import String Ascii.
From Stdlib Require Import ZArith QArith Qround List Bool Lia Lqa.
From Stdlib Require DecimalString.
Import ListNotations.

Open Scope Z_scope.

(** ** Exceptions and the result monad *)

Inductive exception : Type :=
| IndexError
| ZeroDivisionError.

Inductive result (A : Type) : Type :=
| Ok (a : A)
| Raise (e : exception).

Arguments Ok {A} a.
Arguments Raise {A} e.

Definition bind {A B : Type} (m : result A) (k : A -> result B) : result B :=
  match m with
  | Ok a => k a
  | Raise e => Raise e
  end.

Notation "x <- m ;; k" := (bind m (fun x => k))
  (at level 61, m at next level, right associativity).

(** A Python [for] loop over a list whose body updates a state and may raise:
    the first exception leaves the loop. *)
Fixpoint for_each {A S : Type} (l : list A) (body : A -> S -> result S)
    (s : S) : result S :=
  match l with
  | [] => Ok s
  | a :: l' => s' <- body a s ;; for_each l' body s'
  end.

(** ** Python subscripting *)

(** [l[i]]: a negative [i] in [-len(l), -1] stands for [len(l) + i]; any other
    subscript outside [0, len(l) - 1] raises [IndexError]. *)
Definition getitem {A : Type} (l : list A) (i : Z) : result A :=
  let n := Z.of_nat (length l) in
  let j := if i <? 0 then i + n else i in
  if (j <? 0) || (n <=? j) then Raise IndexError
  else match nth_error l (Z.to_nat j) with
       | Some a => Ok a
       | None => Raise IndexError
       end.

(** ** The case table *)

Definition lookup_table : list (list Z) :=
  [
    [];
    [0; 8; 3];
    [0; 1; 9];
    [1; 8; 3; 9; 8; 1];
    [1; 2; 10];
    [0; 8; 3; 1; 2; 10];
    [9; 2; 10; 0; 2; 9];
    [2; 8; 3; 2; 10; 8; 10; 9; 8];
    [3; 11; 2];
    [0; 11; 2; 8; 11; 0];
    [1; 9; 0; 2; 3; 11];
    [1; 11; 2; 1; 9; 11; 9; 8; 11];
    [3; 10; 1; 11; 10; 3];
    [0; 10; 1; 0; 8; 10; 8; 11; 10];
    [3; 9; 0; 3; 11; 9; 11; 10; 9];
    [9; 8; 10; 10; 8; 11];
    [4; 7; 8];
    [4; 3; 0; 7; 3; 4];
    [0; 1; 9; 8; 4; 7];
    [4; 1; 9; 4; 7; 1; 7; 3; 1];
    [1; 2; 10; 8; 4; 7];
    [3; 4; 7; 3; 0; 4; 1; 2; 10];
    [9; 2; 10; 9; 0; 2; 8; 4; 7];
    [2; 10; 9; 2; 9; 7; 2; 7; 3; 7; 9; 4];
    [8; 4; 7; 3; 11; 2];
    [11; 4; 7; 11; 2; 4; 2; 0; 4];
    [9; 0; 1; 8; 4; 7; 2; 3; 11];
    [4; 7; 11; 9; 4; 11; 9; 11; 2; 9; 2; 1];
    [3; 10; 1; 3; 11; 10; 7; 8; 4];
    [1; 11; 10; 1; 4; 11; 1; 0; 4; 7; 11; 4];
    [4; 7; 8; 9; 0; 11; 9; 11; 10; 11; 0; 3];
    [4; 7; 11; 4; 11; 9; 9; 11; 10];
    [9; 5; 4];
    [9; 5; 4; 0; 8; 3];
    [0; 5; 4; 1; 5; 0];
    [8; 5; 4; 8; 3; 5; 3; 1; 5];
    [1; 2; 10; 9; 5; 4];
    [3; 0; 8; 1; 2; 10; 4; 9; 5];
    [5; 2; 10; 5; 4; 2; 4; 0; 2];
    [2; 10; 5; 3; 2; 5; 3; 5; 4; 3; 4; 8];
    [9; 5; 4; 2; 3; 11];
    [0; 11; 2; 0; 8; 11; 4; 9; 5];
    [0; 5; 4; 0; 1; 5; 2; 3; 11];
    [2; 1; 5; 2; 5; 8; 2; 8; 11; 4; 8; 5];
    [10; 3; 11; 10; 1; 3; 9; 5; 4];
    [4; 9; 5; 0; 8; 1; 8; 10; 1; 8; 11; 10];
    [5; 4; 0; 5; 0; 11; 5; 11; 10; 11; 0; 3];
    [5; 4; 8; 5; 8; 10; 10; 8; 11];
    [9; 7; 8; 5; 7; 9];
    [9; 3; 0; 9; 5; 3; 5; 7; 3];
    [0; 7; 8; 0; 1; 7; 1; 5; 7];
    [1; 5; 3; 3; 5; 7];
    [9; 7; 8; 9; 5; 7; 10; 1; 2];
    [10; 1; 2; 9; 5; 0; 5; 3; 0; 5; 7; 3];
    [8; 0; 2; 8; 2; 5; 8; 5; 7; 10; 5; 2];
    [2; 10; 5; 2; 5; 3; 3; 5; 7];
    [7; 9; 5; 7; 8; 9; 3; 11; 2];
    [9; 5; 7; 9; 7; 2; 9; 2; 0; 2; 7; 11];
    [2; 3; 11; 0; 1; 8; 1; 7; 8; 1; 5; 7];
    [11; 2; 1; 11; 1; 7; 7; 1; 5];
    [9; 5; 8; 8; 5; 7; 10; 1; 3; 10; 3; 11];
    [5; 7; 0; 5; 0; 9; 7; 11; 0; 1; 0; 10; 11; 10; 0];
    [11; 10; 0; 11; 0; 3; 10; 5; 0; 8; 0; 7; 5; 7; 0];
    [11; 10; 5; 7; 11; 5];
    [10; 6; 5];
    [0; 8; 3; 5; 10; 6];
    [9; 0; 1; 5; 10; 6];
    [1; 8; 3; 1; 9; 8; 5; 10; 6];
    [1; 6; 5; 2; 6; 1];
    [1; 6; 5; 1; 2; 6; 3; 0; 8];
    [9; 6; 5; 9; 0; 6; 0; 2; 6];
    [5; 9; 8; 5; 8; 2; 5; 2; 6; 3; 2; 8];
    [2; 3; 11; 10; 6; 5];
    [11; 0; 8; 11; 2; 0; 10; 6; 5];
    [0; 1; 9; 2; 3; 11; 5; 10; 6];
    [5; 10; 6; 1; 9; 2; 9; 11; 2; 9; 8; 11];
    [6; 3; 11; 6; 5; 3; 5; 1; 3];
    [0; 8; 11; 0; 11; 5; 0; 5; 1; 5; 11; 6];
    [3; 11; 6; 0; 3; 6; 0; 6; 5; 0; 5; 9];
    [6; 5; 9; 6; 9; 11; 11; 9; 8];
    [5; 10; 6; 4; 7; 8];
    [4; 3; 0; 4; 7; 3; 6; 5; 10];
    [1; 9; 0; 5; 10; 6; 8; 4; 7];
    [10; 6; 5; 1; 9; 7; 1; 7; 3; 7; 9; 4];
    [6; 1; 2; 6; 5; 1; 4; 7; 8];
    [1; 2; 5; 5; 2; 6; 3; 0; 4; 3; 4; 7];
    [8; 4; 7; 9; 0; 5; 0; 6; 5; 0; 2; 6];
    [7; 3; 9; 7; 9; 4; 3; 2; 9; 5; 9; 6; 2; 6; 9];
    [3; 11; 2; 7; 8; 4; 10; 6; 5];
    [5; 10; 6; 4; 7; 2; 4; 2; 0; 2; 7; 11];
    [0; 1; 9; 4; 7; 8; 2; 3; 11; 5; 10; 6];
    [9; 2; 1; 9; 11; 2; 9; 4; 11; 7; 11; 4; 5; 10; 6];
    [8; 4; 7; 3; 11; 5; 3; 5; 1; 5; 11; 6];
    [5; 1; 11; 5; 11; 6; 1; 0; 11; 7; 11; 4; 0; 4; 11];
    [0; 5; 9; 0; 6; 5; 0; 3; 6; 11; 6; 3; 8; 4; 7];
    [6; 5; 9; 6; 9; 11; 4; 7; 9; 7; 11; 9];
    [10; 4; 9; 6; 4; 10];
    [4; 10; 6; 4; 9; 10; 0; 8; 3];
    [10; 0; 1; 10; 6; 0; 6; 4; 0];
    [8; 3; 1; 8; 1; 6; 8; 6; 4; 6; 1; 10];
    [1; 4; 9; 1; 2; 4; 2; 6; 4];
    [3; 0; 8; 1; 2; 9; 2; 4; 9; 2; 6; 4];
    [0; 2; 4; 4; 2; 6];
    [8; 3; 2; 8; 2; 4; 4; 2; 6];
    [10; 4; 9; 10; 6; 4; 11; 2; 3];
    [0; 8; 2; 2; 8; 11; 4; 9; 10; 4; 10; 6];
    [3; 11; 2; 0; 1; 6; 0; 6; 4; 6; 1; 10];
    [6; 4; 1; 6; 1; 10; 4; 8; 1; 2; 1; 11; 8; 11; 1];
    [9; 6; 4; 9; 3; 6; 9; 1; 3; 11; 6; 3];
    [8; 11; 1; 8; 1; 0; 11; 6; 1; 9; 1; 4; 6; 4; 1];
    [3; 11; 6; 3; 6; 0; 0; 6; 4];
    [6; 4; 8; 11; 6; 8];
    [7; 10; 6; 7; 8; 10; 8; 9; 10];
    [0; 7; 3; 0; 10; 7; 0; 9; 10; 6; 7; 10];
    [10; 6; 7; 1; 10; 7; 1; 7; 8; 1; 8; 0];
    [10; 6; 7; 10; 7; 1; 1; 7; 3];
    [1; 2; 6; 1; 6; 8; 1; 8; 9; 8; 6; 7];
    [2; 6; 9; 2; 9; 1; 6; 7; 9; 0; 9; 3; 7; 3; 9];
    [7; 8; 0; 7; 0; 6; 6; 0; 2];
    [7; 3; 2; 6; 7; 2];
    [2; 3; 11; 10; 6; 8; 10; 8; 9; 8; 6; 7];
    [2; 0; 7; 2; 7; 11; 0; 9; 7; 6; 7; 10; 9; 10; 7];
    [1; 8; 0; 1; 7; 8; 1; 10; 7; 6; 7; 10; 2; 3; 11];
    [11; 2; 1; 11; 1; 7; 10; 6; 1; 6; 7; 1];
    [8; 9; 6; 8; 6; 7; 9; 1; 6; 11; 6; 3; 1; 3; 6];
    [0; 9; 1; 11; 6; 7];
    [7; 8; 0; 7; 0; 6; 3; 11; 0; 11; 6; 0];
    [7; 11; 6];
    [7; 6; 11];
    [3; 0; 8; 11; 7; 6];
    [0; 1; 9; 11; 7; 6];
    [8; 1; 9; 8; 3; 1; 11; 7; 6];
    [10; 1; 2; 6; 11; 7];
    [1; 2; 10; 3; 0; 8; 6; 11; 7];
    [2; 9; 0; 2; 10; 9; 6; 11; 7];
    [6; 11; 7; 2; 10; 3; 10; 8; 3; 10; 9; 8];
    [7; 2; 3; 6; 2; 7];
    [7; 0; 8; 7; 6; 0; 6; 2; 0];
    [2; 7; 6; 2; 3; 7; 0; 1; 9];
    [1; 6; 2; 1; 8; 6; 1; 9; 8; 8; 7; 6];
    [10; 7; 6; 10; 1; 7; 1; 3; 7];
    [10; 7; 6; 1; 7; 10; 1; 8; 7; 1; 0; 8];
    [0; 3; 7; 0; 7; 10; 0; 10; 9; 6; 10; 7];
    [7; 6; 10; 7; 10; 8; 8; 10; 9];
    [6; 8; 4; 11; 8; 6];
    [3; 6; 11; 3; 0; 6; 0; 4; 6];
    [8; 6; 11; 8; 4; 6; 9; 0; 1];
    [9; 4; 6; 9; 6; 3; 9; 3; 1; 11; 3; 6];
    [6; 8; 4; 6; 11; 8; 2; 10; 1];
    [1; 2; 10; 3; 0; 11; 0; 6; 11; 0; 4; 6];
    [4; 11; 8; 4; 6; 11; 0; 2; 9; 2; 10; 9];
    [10; 9; 3; 10; 3; 2; 9; 4; 3; 11; 3; 6; 4; 6; 3];
    [8; 2; 3; 8; 4; 2; 4; 6; 2];
    [0; 4; 2; 4; 6; 2];
    [1; 9; 0; 2; 3; 4; 2; 4; 6; 4; 3; 8];
    [1; 9; 4; 1; 4; 2; 2; 4; 6];
    [8; 1; 3; 8; 6; 1; 8; 4; 6; 6; 10; 1];
    [10; 1; 0; 10; 0; 6; 6; 0; 4];
    [4; 6; 3; 4; 3; 8; 6; 10; 3; 0; 3; 9; 10; 9; 3];
    [10; 9; 4; 6; 10; 4];
    [4; 9; 5; 7; 6; 11];
    [0; 8; 3; 4; 9; 5; 11; 7; 6];
    [5; 0; 1; 5; 4; 0; 7; 6; 11];
    [11; 7; 6; 8; 3; 4; 3; 5; 4; 3; 1; 5];
    [9; 5; 4; 10; 1; 2; 7; 6; 11];
    [6; 11; 7; 1; 2; 10; 0; 8; 3; 4; 9; 5];
    [7; 6; 11; 5; 4; 10; 4; 2; 10; 4; 0; 2];
    [3; 4; 8; 3; 5; 4; 3; 2; 5; 10; 5; 2; 11; 7; 6];
    [7; 2; 3; 7; 6; 2; 5; 4; 9];
    [9; 5; 4; 0; 8; 6; 0; 6; 2; 6; 8; 7];
    [3; 6; 2; 3; 7; 6; 1; 5; 0; 5; 4; 0];
    [6; 2; 8; 6; 8; 7; 2; 1; 8; 4; 8; 5; 1; 5; 8];
    [9; 5; 4; 10; 1; 6; 1; 7; 6; 1; 3; 7];
    [1; 6; 10; 1; 7; 6; 1; 0; 7; 8; 7; 0; 9; 5; 4];
    [4; 0; 10; 4; 10; 5; 0; 3; 10; 6; 10; 7; 3; 7; 10];
    [7; 6; 10; 7; 10; 8; 5; 4; 10; 4; 8; 10];
    [6; 9; 5; 6; 11; 9; 11; 8; 9];
    [3; 6; 11; 0; 6; 3; 0; 5; 6; 0; 9; 5];
    [0; 11; 8; 0; 5; 11; 0; 1; 5; 5; 6; 11];
    [6; 11; 3; 6; 3; 5; 5; 3; 1];
    [1; 2; 10; 9; 5; 11; 9; 11; 8; 11; 5; 6];
    [0; 11; 3; 0; 6; 11; 0; 9; 6; 5; 6; 9; 1; 2; 10];
    [11; 8; 5; 11; 5; 6; 8; 0; 5; 10; 5; 2; 0; 2; 5];
    [6; 11; 3; 6; 3; 5; 2; 10; 3; 10; 5; 3];
    [5; 8; 9; 5; 2; 8; 5; 6; 2; 3; 8; 2];
    [9; 5; 6; 9; 6; 0; 0; 6; 2];
    [1; 5; 8; 1; 8; 0; 5; 6; 8; 3; 8; 2; 6; 2; 8];
    [1; 5; 6; 2; 1; 6];
    [1; 3; 6; 1; 6; 10; 3; 8; 6; 5; 6; 9; 8; 9; 6];
    [10; 1; 0; 10; 0; 6; 9; 5; 0; 5; 6; 0];
    [0; 3; 8; 5; 6; 10];
    [10; 5; 6];
    [11; 5; 10; 7; 5; 11];
    [11; 5; 10; 11; 7; 5; 8; 3; 0];
    [5; 11; 7; 5; 10; 11; 1; 9; 0];
    [10; 7; 5; 10; 11; 7; 9; 8; 1; 8; 3; 1];
    [11; 1; 2; 11; 7; 1; 7; 5; 1];
    [0; 8; 3; 1; 2; 7; 1; 7; 5; 7; 2; 11];
    [9; 7; 5; 9; 2; 7; 9; 0; 2; 2; 11; 7];
    [7; 5; 2; 7; 2; 11; 5; 9; 2; 3; 2; 8; 9; 8; 2];
    [2; 5; 10; 2; 3; 5; 3; 7; 5];
    [8; 2; 0; 8; 5; 2; 8; 7; 5; 10; 2; 5];
    [9; 0; 1; 5; 10; 3; 5; 3; 7; 3; 10; 2];
    [9; 8; 2; 9; 2; 1; 8; 7; 2; 10; 2; 5; 7; 5; 2];
    [1; 3; 5; 3; 7; 5];
    [0; 8; 7; 0; 7; 1; 1; 7; 5];
    [9; 0; 3; 9; 3; 5; 5; 3; 7];
    [9; 8; 7; 5; 9; 7];
    [5; 8; 4; 5; 10; 8; 10; 11; 8];
    [5; 0; 4; 5; 11; 0; 5; 10; 11; 11; 3; 0];
    [0; 1; 9; 8; 4; 10; 8; 10; 11; 10; 4; 5];
    [10; 11; 4; 10; 4; 5; 11; 3; 4; 9; 4; 1; 3; 1; 4];
    [2; 5; 1; 2; 8; 5; 2; 11; 8; 4; 5; 8];
    [0; 4; 11; 0; 11; 3; 4; 5; 11; 2; 11; 1; 5; 1; 11];
    [0; 2; 5; 0; 5; 9; 2; 11; 5; 4; 5; 8; 11; 8; 5];
    [9; 4; 5; 2; 11; 3];
    [2; 5; 10; 3; 5; 2; 3; 4; 5; 3; 8; 4];
    [5; 10; 2; 5; 2; 4; 4; 2; 0];
    [3; 10; 2; 3; 5; 10; 3; 8; 5; 4; 5; 8; 0; 1; 9];
    [5; 10; 2; 5; 2; 4; 1; 9; 2; 9; 4; 2];
    [8; 4; 5; 8; 5; 3; 3; 5; 1];
    [0; 4; 5; 1; 0; 5];
    [8; 4; 5; 8; 5; 3; 9; 0; 5; 0; 3; 5];
    [9; 4; 5];
    [4; 11; 7; 4; 9; 11; 9; 10; 11];
    [0; 8; 3; 4; 9; 7; 9; 11; 7; 9; 10; 11];
    [1; 10; 11; 1; 11; 4; 1; 4; 0; 7; 4; 11];
    [3; 1; 4; 3; 4; 8; 1; 10; 4; 7; 4; 11; 10; 11; 4];
    [4; 11; 7; 9; 11; 4; 9; 2; 11; 9; 1; 2];
    [9; 7; 4; 9; 11; 7; 9; 1; 11; 2; 11; 1; 0; 8; 3];
    [11; 7; 4; 11; 4; 2; 2; 4; 0];
    [11; 7; 4; 11; 4; 2; 8; 3; 4; 3; 2; 4];
    [2; 9; 10; 2; 7; 9; 2; 3; 7; 7; 4; 9];
    [9; 10; 7; 9; 7; 4; 10; 2; 7; 8; 7; 0; 2; 0; 7];
    [3; 7; 10; 3; 10; 2; 7; 4; 10; 1; 10; 0; 4; 0; 10];
    [1; 10; 2; 8; 7; 4];
    [4; 9; 1; 4; 1; 7; 7; 1; 3];
    [4; 9; 1; 4; 1; 7; 0; 8; 1; 8; 7; 1];
    [4; 0; 3; 7; 4; 3];
    [4; 8; 7];
    [9; 10; 8; 10; 11; 8];
    [3; 0; 9; 3; 9; 11; 11; 9; 10];
    [0; 1; 10; 0; 10; 8; 8; 10; 11];
    [3; 1; 10; 11; 3; 10];
    [1; 2; 11; 1; 11; 9; 9; 11; 8];
    [3; 0; 9; 3; 9; 11; 1; 2; 9; 2; 11; 9];
    [0; 2; 11; 8; 0; 11];
    [3; 2; 11];
    [2; 3; 8; 2; 8; 10; 10; 8; 9];
    [9; 10; 2; 0; 9; 2];
    [2; 3; 8; 2; 8; 10; 0; 1; 8; 1; 10; 8];
    [1; 10; 2];
    [1; 3; 8; 9; 1; 8];
    [0; 9; 1];
    [0; 3; 8];
    []
  ].

Definition _lookup_configuration (case : Z) : result (list Z) :=
  configuration <- getitem lookup_table case ;;
  Ok configuration.

(** ** Vertex positions of a cube's triangles *)

Open Scope Q_scope.

(** Relative position on the cube of each edge's midpoint. *)
Definition edge_midpoints : list (Q * Q * Q) :=
  [ (1#2, 0, 0);
    (1, 0, 1#2);
    (1#2, 0, 1);
    (0, 0, 1#2);
    (1#2, 1, 0);
    (1, 1, 1#2);
    (1#2, 1, 1);
    (0, 1, 1#2);
    (0, 1#2, 0);
    (1, 1#2, 0);
    (1, 1#2, 1);
    (0, 1#2, 1) ].

Definition _get_vertex_positions (configuration : list Z)
    (coordinate : Q * Q * Q) (stepsize : Q) : result (list Q) :=
  let '(x, y, z) := coordinate in
  for_each configuration
    (fun index configuration_vertices =>
       midpoint <- getitem edge_midpoints index ;;
       let '(edge_x, edge_y, edge_z) := midpoint in
       let configuration_vertices :=
         (configuration_vertices ++ [x + stepsize * edge_x])%list in
       let configuration_vertices :=
         (configuration_vertices ++ [y + stepsize * edge_y])%list in
       let configuration_vertices :=
         (configuration_vertices ++ [z + stepsize * edge_z])%list in
       Ok configuration_vertices)
    [].

(** ** numpy.arange *)

(** [numpy.arange(start, stop, step)] on floating point arguments: the
    [ceil((stop - start) / step)] values [start + i * step]; no value when
    that count is not positive.  A zero step raises. *)
Definition np_arange (start stop step : Q) : result (list Q) :=
  if Qeq_bool step 0 then Raise ZeroDivisionError
  else
    let n := Z.to_nat (Qceiling ((stop - start) / step)) in
    Ok (map (fun i => start + inject_Z (Z.of_nat i) * step) (seq 0 n)).

(** The same on integer arguments. *)
Definition np_arange_int (start stop step : Z) : result (list Z) :=
  if (step =? 0)%Z then Raise ZeroDivisionError
  else
    let n := Z.to_nat (- ((- (stop - start)) / step))%Z in
    Ok (map (fun i => (start + Z.of_nat i * step)%Z) (seq 0 n)).

(** ** The lattice scan *)

Definition Qlt_bool (x y : Q) : bool := negb (Qle_bool y x).

Definition FRONT_BOTTOM_LEFT : Z := 8.
Definition FRONT_BOTTOM_RIGHT : Z := 4.
Definition FRONT_TOP_LEFT : Z := 128.
Definition FRONT_TOP_RIGHT : Z := 64.

Definition BACK_BOTTOM_LEFT : Z := 1.
Definition BACK_BOTTOM_RIGHT : Z := 2.
Definition BACK_TOP_LEFT : Z := 16.
Definition BACK_TOP_RIGHT : Z := 32.

(** The bitmask [case] the loop body builds for the cube at [(x, y, z)]. *)
Definition cube_case (scalar_field : Q -> Q -> Q -> Q)
    (isovalue x y z stepsize : Q) : Z :=
  let case := 0%Z in
  let case := if Qlt_bool (scalar_field x y z) isovalue
              then Z.lor case BACK_BOTTOM_LEFT else case in
  let case := if Qlt_bool (scalar_field (x + stepsize) y z) isovalue
              then Z.lor case BACK_BOTTOM_RIGHT else case in
  let case := if Qlt_bool (scalar_field x (y + stepsize) z) isovalue
              then Z.lor case BACK_TOP_LEFT else case in
  let case := if Qlt_bool (scalar_field (x + stepsize) (y + stepsize) z) isovalue
              then Z.lor case BACK_TOP_RIGHT else case in
  let case := if Qlt_bool (scalar_field x y (z + stepsize)) isovalue
              then Z.lor case FRONT_BOTTOM_LEFT else case in
  let case := if Qlt_bool (scalar_field (x + stepsize) y (z + stepsize)) isovalue
              then Z.lor case FRONT_BOTTOM_RIGHT else case in
  let case := if Qlt_bool (scalar_field x (y + stepsize) (z + stepsize)) isovalue
              then Z.lor case FRONT_TOP_LEFT else case in
  let case := if Qlt_bool (scalar_field (x + stepsize) (y + stepsize) (z + stepsize)) isovalue
              then Z.lor case FRONT_TOP_RIGHT else case in
  case.

(** The body of the innermost loop: classify the cube, look its case up,
    place the vertices and append them to the mesh. *)
Definition march_cube (scalar_field : Q -> Q -> Q -> Q)
    (isovalue stepsize x y z : Q) (mesh_vertices : list Q) : result (list Q) :=
  let case := cube_case scalar_field isovalue x y z stepsize in
  edge_indices <- _lookup_configuration case ;;
  cube_vertices <- _get_vertex_positions edge_indices (x, y, z) stepsize ;;
  for_each cube_vertices
    (fun vertex mesh_vertices => Ok (mesh_vertices ++ [vertex])%list)
    mesh_vertices.

Definition marching_cubes (scalar_field : Q -> Q -> Q -> Q)
    (isovalue volume_min volume_max stepsize : Q) : result (list Q) :=
  let mesh_vertices := [] in
  ys <- np_arange volume_min volume_max stepsize ;;
  for_each ys
    (fun y mesh_vertices =>
       xs <- np_arange volume_min volume_max stepsize ;;
       for_each xs
         (fun x mesh_vertices =>
            zs <- np_arange volume_min volume_max stepsize ;;
            for_each zs
              (fun z mesh_vertices =>
                 march_cube scalar_field isovalue stepsize x y z mesh_vertices)
              mesh_vertices)
         mesh_vertices)
    mesh_vertices.

(** ** Normals *)

Record vec3 : Type := mk_vec3 { vec_x : Q; vec_y : Q; vec_z : Q }.

Definition vec3_sub (a b : vec3) : vec3 :=
  mk_vec3 (vec_x a - vec_x b) (vec_y a - vec_y b) (vec_z a - vec_z b).

(** [glm.cross]. *)
Definition cross (a b : vec3) : vec3 :=
  mk_vec3 (vec_y a * vec_z b - vec_y b * vec_z a)
          (vec_z a * vec_x b - vec_z b * vec_x a)
          (vec_x a * vec_y b - vec_x b * vec_y a).

(** [range(n)]. *)
Definition range (n : nat) : list Z := map Z.of_nat (seq 0 n).

Section Normals.

(** [glm.normalize]: a function of the glm library, whose value on a vector
    of length zero is not a number. *)
Variable normalize : vec3 -> vec3.

(** The normal of the triangle whose first coordinate is at [index]. *)
Definition triangle_normal (vertices : list Q) (index : Z) : result vec3 :=
  a0 <- getitem vertices index ;;
  a1 <- getitem vertices (index + 1)%Z ;;
  a2 <- getitem vertices (index + 2)%Z ;;
  let vertexA := mk_vec3 a0 a1 a2 in
  b0 <- getitem vertices (index + 3)%Z ;;
  b1 <- getitem vertices (index + 4)%Z ;;
  b2 <- getitem vertices (index + 5)%Z ;;
  let vertexB := mk_vec3 b0 b1 b2 in
  c0 <- getitem vertices (index + 6)%Z ;;
  c1 <- getitem vertices (index + 7)%Z ;;
  c2 <- getitem vertices (index + 8)%Z ;;
  let vertexC := mk_vec3 c0 c1 c2 in
  let edgeA := vec3_sub vertexB vertexA in
  let edgeB := vec3_sub vertexC vertexA in
  Ok (normalize (cross edgeA edgeB)).

Definition compute_normals (vertices : list Q) : result (list Q) :=
  indices <- np_arange_int 0 (Z.of_nat (length vertices)) 9 ;;
  for_each indices
    (fun index normals =>
       normal <- triangle_normal vertices index ;;
       for_each (range 3)
         (fun _ normals =>
            let normals := (normals ++ [vec_x normal])%list in
            let normals := (normals ++ [vec_y normal])%list in
            let normals := (normals ++ [vec_z normal])%list in
            Ok normals)
         normals)
    [].

End Normals.

(** ** Writing the mesh file *)

Open Scope string_scope.

(** Writes to the open file append to its text; a raised exception leaves the
    text written so far in the file. *)
Definition file_io (A : Type) : Type := string -> result A * string.

Definition io_bind {A B : Type} (m : file_io A) (k : A -> file_io B)
    : file_io B :=
  fun text =>
    match m text with
    | (Ok a, text') => k a text'
    | (Raise e, text') => (Raise e, text')
    end.

Notation "x <~ m ;; k" := (io_bind m (fun x => k))
  (at level 61, m at next level, right associativity).
Notation "m >> k" := (io_bind m (fun _ => k))
  (at level 61, right associativity).

Definition io_ret {A : Type} (a : A) : file_io A := fun text => (Ok a, text).

Definition io_lift {A : Type} (r : result A) : file_io A :=
  fun text => (r, text).

Definition file_write (s : string) : file_io unit :=
  fun text => (Ok tt, text ++ s).

Fixpoint io_for_each {A : Type} (l : list A) (body : A -> file_io unit)
    : file_io unit :=
  match l with
  | [] => io_ret tt
  | a :: l' => body a >> io_for_each l' body
  end.

Definition nl : string := String (ascii_of_nat 10) EmptyString.

(** [str.format] on an integer. *)
Definition format_int (z : Z) : string :=
  DecimalString.NilZero.string_of_int (Z.to_int z).

(** [str.format] on the optional comment. *)
Definition format_comment (comment : option string) : string :=
  match comment with
  | Some c => c
  | None => "None"
  end.

Section PLY.

(** [str.format] on a floating point number. *)
Variable format_float : Q -> string.

(** The body of the [with] block of [writePLY]. *)
Definition writePLY_body (vertices normals : list Q) (comment : option string)
    : file_io unit :=
  let num_vertices := (Z.of_nat (length vertices) / 3)%Z in
  let num_faces := (num_vertices / 3)%Z in
  file_write ("ply" ++ nl) >>
  file_write ("format ascii 1.0" ++ nl) >>
  file_write ("comment " ++ format_comment comment ++ nl) >>
  file_write ("element vertex " ++ format_int num_vertices ++ nl) >>
  file_write ("property float x" ++ nl ++ "property float y" ++ nl
              ++ "property float z" ++ nl) >>
  file_write ("property float nx" ++ nl ++ "property float ny" ++ nl
              ++ "property float nz" ++ nl) >>
  file_write ("element face " ++ format_int num_faces ++ nl) >>
  file_write ("property list uchar uint vertex_indices" ++ nl) >>
  file_write ("end_header" ++ nl) >>
  vertex_indices <~ io_lift (np_arange_int 0 (Z.of_nat (length vertices)) 3) ;;
  io_for_each vertex_indices
    (fun i =>
       v0 <~ io_lift (getitem vertices i) ;;
       v1 <~ io_lift (getitem vertices (i + 1)%Z) ;;
       v2 <~ io_lift (getitem vertices (i + 2)%Z) ;;
       n0 <~ io_lift (getitem normals i) ;;
       n1 <~ io_lift (getitem normals (i + 1)%Z) ;;
       n2 <~ io_lift (getitem normals (i + 2)%Z) ;;
       file_write (format_float v0 ++ " " ++ format_float v1 ++ " "
                   ++ format_float v2 ++ " " ++ format_float n0 ++ " "
                   ++ format_float n1 ++ " " ++ format_float n2 ++ nl)) >>
  face_indices <~ io_lift (np_arange_int 0 num_vertices 3) ;;
  io_for_each face_indices
    (fun i =>
       file_write ("3 " ++ format_int i ++ " " ++ format_int (i + 1)%Z ++ " "
                   ++ format_int (i + 2)%Z ++ nl)).

(** [writePLY]: the file is opened for writing, so it starts empty; the
    outcome is paired with the text the file holds in the end. *)
Definition writePLY (vertices normals : list Q) (comment : option string)
    : result unit * string :=
  writePLY_body vertices normals comment EmptyString.

End PLY.

(** ** Scalar fields *)

Open Scope Q_scope.

(** The scalar field f(x, y, z) = x^2 - y^2 - z^2 - z.  The other field of
    the module, [wavy], takes a sine and a cosine and has no rational
    counterpart; every statement below holds for an arbitrary field. *)
Definition hyperboloid (x y z : Q) : Q := x ^ 2 - y ^ 2 - z ^ 2 - z.

(** ** Closed forms used in the statements *)

Open Scope Q_scope.

(** An edge index that is a valid entry of the edge-midpoint table. *)
Definition edge_index (e : Z) : Prop := (0 <= e <= 11)%Z.

Definition check_entry (l : list Z) : bool :=
  (length l mod 3 =? 0)%nat
  && forallb (fun e => (0 <=? e)%Z && (e <=? 11)%Z) l.

(** The triple [_get_vertex_positions] appends for edge index [e]. *)
Definition edge_position (x y z stepsize : Q) (e : Z) : list Q :=
  let '(edge_x, edge_y, edge_z) := nth (Z.to_nat e) edge_midpoints (0, 0, 0) in
  [x + stepsize * edge_x; y + stepsize * edge_y; z + stepsize * edge_z].

(** The values of [numpy.arange] for a step that is not zero. *)
Definition arange_values (start stop step : Q) : list Q :=
  map (fun i => start + inject_Z (Z.of_nat i) * step)
      (seq 0 (Z.to_nat (Qceiling ((stop - start) / step)))).

(** The coordinates one cube contributes to the mesh. *)
Definition cube_vertices (scalar_field : Q -> Q -> Q -> Q)
    (isovalue stepsize x y z : Q) : list Q :=
  flat_map (edge_position x y z stepsize)
    (nth (Z.to_nat (cube_case scalar_field isovalue x y z stepsize))
         lookup_table []).

(** Whether the bit of [mask] is set in [case]. *)
Definition bit_set (case mask : Z) : bool := negb (Z.land case mask =? 0)%Z.

(** The mesh of the whole lattice, cube after cube in the order of the three
    nested loops: [y] outermost, then [x], then [z]. *)
Definition lattice_vertices (scalar_field : Q -> Q -> Q -> Q)
    (isovalue volume_min volume_max stepsize : Q) : list Q :=
  let axis := arange_values volume_min volume_max stepsize in
  flat_map
    (fun y =>
       flat_map
         (fun x =>
            flat_map
              (fun z => cube_vertices scalar_field isovalue stepsize x y z)
              axis)
         axis)
    axis.

(** The vertex whose first coordinate is at position [i] of the flat list. *)
Definition vertex_at (vertices : list Q) (i : nat) : vec3 :=
  mk_vec3 (nth i vertices 0) (nth (i + 1) vertices 0) (nth (i + 2) vertices 0).

(** The cross product of the two edges of triangle [k] that leave its first
    vertex. *)
Definition triangle_cross (vertices : list Q) (k : nat) : vec3 :=
  let vertexA := vertex_at vertices (9 * k) in
  let vertexB := vertex_at vertices (9 * k + 3) in
  let vertexC := vertex_at vertices (9 * k + 6) in
  cross (vec3_sub vertexB vertexA) (vec3_sub vertexC vertexA).

Definition vec3_coords (v : vec3) : list Q := [vec_x v; vec_y v; vec_z v].

(** The nine numbers [compute_normals] appends for a triangle of normal [n]. *)
Definition flat_shaded (n : vec3) : list Q :=
  (vec3_coords n ++ vec3_coords n ++ vec3_coords n)%list.

(** A vector of length zero. *)
Definition zero_length (v : vec3) : Prop :=
  vec_x v == 0 /\ vec_y v == 0 /\ vec_z v == 0.

(** A triangle of area zero: its three vertices lie on one line. *)
Definition collinear_triangle : list Q := [0; 0; 0; 1; 1; 1; 2; 2; 2].

(** A triangle that is not degenerate. *)
Definition corner_triangle : list Q := [0; 0; 0; 1; 0; 0; 0; 1; 0].

(** ** The text of the mesh file *)

Open Scope string_scope.

Definition join (l : list string) : string := fold_right append EmptyString l.

(** The header of a file of [num_vertices] vertices and [num_faces] faces. *)
Definition ply_header (comment : option string) (num_vertices num_faces : Z)
    : string :=
  "ply" ++ nl
  ++ "format ascii 1.0" ++ nl
  ++ "comment " ++ format_comment comment ++ nl
  ++ "element vertex " ++ format_int num_vertices ++ nl
  ++ "property float x" ++ nl ++ "property float y" ++ nl
  ++ "property float z" ++ nl
  ++ "property float nx" ++ nl ++ "property float ny" ++ nl
  ++ "property float nz" ++ nl
  ++ "element face " ++ format_int num_faces ++ nl
  ++ "property list uchar uint vertex_indices" ++ nl
  ++ "end_header" ++ nl.

(** The record of vertex [k]: its position, then its normal. *)
Definition vertex_record (format_float : Q -> string)
    (vertices normals : list Q) (k : nat) : string :=
  format_float (nth (3 * k) vertices 0%Q) ++ " "
  ++ format_float (nth (3 * k + 1) vertices 0%Q) ++ " "
  ++ format_float (nth (3 * k + 2) vertices 0%Q) ++ " "
  ++ format_float (nth (3 * k) normals 0%Q) ++ " "
  ++ format_float (nth (3 * k + 1) normals 0%Q) ++ " "
  ++ format_float (nth (3 * k + 2) normals 0%Q) ++ nl.

(** The record of face [k]. *)
Definition face_record (k : nat) : string :=
  "3 " ++ format_int (3 * Z.of_nat k) ++ " "
  ++ format_int (3 * Z.of_nat k + 1) ++ " "
  ++ format_int (3 * Z.of_nat k + 2) ++ nl.

(** A rendering of numbers for the examples: numerator, slash, denominator. *)
Definition format_fraction (q : Q) : string :=
  format_int (Qnum q) ++ "/" ++ format_int (Zpos (Qden q)).

(** Ten numbers: three vertices and the first coordinate of a fourth. *)
Definition ragged_vertices : list Q := [0; 0; 0; 1; 0; 0; 0; 1; 0; 5]%Q.

(** ** Tactics *)

(** Case analysis on every corner test of a goal. *)
Ltac split_corners :=
  repeat match goal with
         | |- context [Qlt_bool ?a ?b] => destruct (Qlt_bool a b)
         end.

(** ** The geometry of the case table *)

Open Scope Q_scope.

(** A corner of the cube is given by three flags: whether it sits one step
    further along x, along y and along z. *)
Definition shift (up : bool) (c stepsize : Q) : Q :=
  if up then c + stepsize else c.

(** The mask [marching_cubes] gives to each corner. *)
Definition corner_mask (corner : bool * bool * bool) : Z :=
  match corner with
  | (false, false, false) => BACK_BOTTOM_LEFT
  | (true, false, false) => BACK_BOTTOM_RIGHT
  | (false, true, false) => BACK_TOP_LEFT
  | (true, true, false) => BACK_TOP_RIGHT
  | (false, false, true) => FRONT_BOTTOM_LEFT
  | (true, false, true) => FRONT_BOTTOM_RIGHT
  | (false, true, true) => FRONT_TOP_LEFT
  | (true, true, true) => FRONT_TOP_RIGHT
  end.

(** The test [marching_cubes] makes at a corner. *)
Definition corner_below (scalar_field : Q -> Q -> Q -> Q)
    (isovalue x y z stepsize : Q) (corner : bool * bool * bool) : bool :=
  let '(dx, dy, dz) := corner in
  Qlt_bool (scalar_field (shift dx x stepsize) (shift dy y stepsize)
                         (shift dz z stepsize))
           isovalue.

(** The two corners an edge joins, read off its midpoint: a coordinate of
    the midpoint that is 0 or 1 is shared by both ends, the coordinate that
    is 1/2 runs from 0 at the first end to 1 at the second. *)
Definition edge_ends (e : Z)
    : (bool * bool * bool) * (bool * bool * bool) :=
  let '(edge_x, edge_y, edge_z) := nth (Z.to_nat e) edge_midpoints (0, 0, 0) in
  ((Qle_bool 1 edge_x, Qle_bool 1 edge_y, Qle_bool 1 edge_z),
   (Qlt_bool 0 edge_x, Qlt_bool 0 edge_y, Qlt_bool 0 edge_z)).

(** Whether the two ends of edge [e] are classified differently in [case]. *)
Definition edge_crossed (case e : Z) : bool :=
  xorb (bit_set case (corner_mask (fst (edge_ends e))))
       (bit_set case (corner_mask (snd (edge_ends e)))).

Definition check_crossings (case : Z) (row : list Z) : bool :=
  forallb (fun e => Bool.eqb (existsb (Z.eqb e) row) (edge_crossed case e))
          (range 12).









(** The position of a corner of the cube at [(x, y, z)]. *)
Definition corner_position (x y z stepsize : Q) (corner : bool * bool * bool)
    : list Q :=
  let '(dx, dy, dz) := corner in
  [shift dx x stepsize; shift dy y stepsize; shift dz z stepsize].

Definition all_corners : list (bool * bool * bool) :=
  [(false, false, false); (true, false, false); (false, true, false);
   (true, true, false); (false, false, true); (true, false, true);
   (false, true, true); (true, true, true)].

(** Whether all eight corners are classified alike in [case]. *)
Definition uniform_case (case : Z) : bool :=
  forallb (fun corner =>
             Bool.eqb (bit_set case (corner_mask corner))
                      (bit_set case (corner_mask (false, false, false))))
          all_corners.

Definition check_empty_row (case : Z) (row : list Z) : bool :=
  Bool.eqb (match row with [] => true | _ :: _ => false end)
           (uniform_case case).

(** The longest prefix of a list whose elements all pass a test. *)
Fixpoint take_while {A : Type} (test : A -> bool) (l : list A) : list A :=
  match l with
  | [] => []
  | a :: l' => if test a then a :: take_while test l' else []
  end.

(** ** [render.py]: flattening a matrix *)

(** [matrix_to_array]: the comprehension
    [[matrix[i][j] for i in range(dimensions) for j in range(dimensions)]].
    The matrix is subscripted twice, first by [i]; it is modelled as the list
    of the lists [matrix[i]]. *)
Definition matrix_to_array (matrix : list (list Q)) (dimensions : Z)
    : result (list Q) :=
  for_each (range (Z.to_nat dimensions))
    (fun i matrix_array =>
       for_each (range (Z.to_nat dimensions))
         (fun j matrix_array =>
            row <- getitem matrix i ;;
            entry <- getitem row j ;;
            Ok (matrix_array ++ [entry])%list)
         matrix_array)
    [].

(** ** [render.py]: the camera *)

(** The attributes of a [Camera], in spherical coordinates. *)
Record Camera : Type := mk_Camera { radius : Q; theta : Q; phi : Q }.

(** Python's [max] and [min] of two numbers: the second argument is taken
    only when it is strictly larger, respectively strictly smaller. *)
Definition py_max (a b : Q) : Q := if Qlt_bool a b then b else a.
Definition py_min (a b : Q) : Q := if Qlt_bool b a then b else a.

Definition rotateTheta (self : Camera) (increment : Q) : Camera :=
  mk_Camera (radius self) (theta self + increment) (phi self).

Definition zoomRadius (self : Camera) (increment : Q) : Camera :=
  let self := mk_Camera (radius self + increment) (theta self) (phi self) in
  if Qle_bool (radius self) (1 # 10000)
  then mk_Camera (1 # 10000) (theta self) (phi self)
  else self.

Section CameraAngles.

(** [numpy.pi]. *)
Variable np_pi : Q.

Definition rotatePhi (self : Camera) (increment : Q) : Camera :=
  let self := mk_Camera (radius self) (theta self) (phi self + increment) in
  let epsilon := 1 # 1000 in
  mk_Camera (radius self) (theta self)
    (py_max (py_min (phi self) (py_max epsilon (np_pi - epsilon)))
            (py_min epsilon (np_pi - epsilon))).

(** One pass of the render loop moves the camera by the three calls
    [zoomRadius(dr)], [rotateTheta(0.005 * dx)], [rotatePhi(-0.005 * dy)]. *)
Definition move_camera (self : Camera) (drag : Q * Q * Q) : Camera :=
  let '(dr, dx, dy) := drag in
  let self := zoomRadius self dr in
  let self := rotateTheta self ((5 # 1000) * dx) in
  rotatePhi self (- (5 # 1000) * dy).

End CameraAngles.

(** ** [render.py]: reading the mesh file *)

From Stdlib Require DecimalZ.

(** The exceptions [readPLY] can end in, beside those of subscripting. *)
Inductive py_exception : Type :=
| Builtin (e : exception)
| ValueError
| KeyError
| StopIteration.

Inductive outcome (A : Type) : Type :=
| Return (a : A)
| Throw (e : py_exception).

Arguments Return {A} a.
Arguments Throw {A} e.

Definition of_result {A : Type} (r : result A) : outcome A :=
  match r with
  | Ok a => Return a
  | Raise e => Throw (Builtin e)
  end.

Definition outcome_bind {A B : Type} (m : outcome A) (k : A -> outcome B)
    : outcome B :=
  match m with
  | Return a => k a
  | Throw e => Throw e
  end.

Notation "x <== m ;; k" := (outcome_bind m (fun x => k))
  (at level 61, m at next level, right associativity).

(** A loop whose body may throw, as [for_each] for [result]. *)
Fixpoint loop_each {A S : Type} (l : list A) (body : A -> S -> outcome S)
    (s : S) : outcome S :=
  match l with
  | [] => Return s
  | a :: l' => s' <== body a s ;; loop_each l' body s'
  end.

(** *** Strings *)

Definition newline : ascii := ascii_of_nat 10.
Definition carriage_return : ascii := ascii_of_nat 13.

(** A file opened in text mode is read with universal newlines: a carriage
    return, alone or followed by a line feed, is read as one line feed. *)
Fixpoint universal_newlines (s : string) : string :=
  match s with
  | EmptyString => EmptyString
  | String c s' =>
      if Ascii.eqb c carriage_return
      then match s' with
           | String c' s'' =>
               if Ascii.eqb c' newline
               then String newline (universal_newlines s'')
               else String newline (universal_newlines s')
           | EmptyString => String newline EmptyString
           end
      else String c (universal_newlines s')
  end.

(** [str.isspace] on a character below 256. *)
Definition is_space (c : ascii) : bool :=
  let n := nat_of_ascii c in
  ((9 <=? n) && (n <=? 13) || (28 <=? n) && (n <=? 32)
   || (n =? 133) || (n =? 160))%nat.

Fixpoint lstrip (strippable : ascii -> bool) (s : string) : string :=
  match s with
  | EmptyString => EmptyString
  | String c s' => if strippable c then lstrip strippable s' else s
  end.

Fixpoint rstrip (strippable : ascii -> bool) (s : string) : string :=
  match s with
  | EmptyString => EmptyString
  | String c s' =>
      match rstrip strippable s' with
      | EmptyString => if strippable c then EmptyString
                       else String c EmptyString
      | String c' r => String c (String c' r)
      end
  end.

(** [s.strip(chars)] and [s.strip()]. *)
Definition strip_chars (strippable : ascii -> bool) (s : string) : string :=
  rstrip strippable (lstrip strippable s).

Definition strip (s : string) : string := strip_chars is_space s.

(** [s.split(sep)] for a separator of one character. *)
Fixpoint split_on (sep : ascii) (s : string) : list string :=
  match s with
  | EmptyString => [EmptyString]
  | String c s' =>
      if Ascii.eqb c sep then EmptyString :: split_on sep s'
      else match split_on sep s' with
           | w :: ws => String c w :: ws
           | [] => [String c EmptyString]
           end
  end.

(** [s.split()]: the maximal runs of characters that are not spaces. *)
Fixpoint split_ws (s : string) : list string :=
  match s with
  | EmptyString => []
  | String c s' =>
      if is_space c then split_ws s'
      else match s' with
           | EmptyString => [String c EmptyString]
           | String c' _ =>
               if is_space c' then String c EmptyString :: split_ws s'
               else match split_ws s' with
                    | w :: ws => String c w :: ws
                    | [] => [String c EmptyString]
                    end
           end
  end.

(** *** The open file *)

(** A computation on the open file: from the text not yet read to a value and
    the text left, or to an exception. *)
Definition reader (A : Type) : Type := string -> outcome (A * string).

Definition reader_ret {A : Type} (a : A) : reader A :=
  fun text => Return (a, text).

Definition reader_bind {A B : Type} (m : reader A) (k : A -> reader B)
    : reader B :=
  fun text =>
    match m text with
    | Return (a, text') => k a text'
    | Throw e => Throw e
    end.

Notation "x <=~ m ;; k" := (reader_bind m (fun x => k))
  (at level 61, m at next level, right associativity).

Definition reader_lift {A : Type} (m : outcome A) : reader A :=
  fun text =>
    match m with
    | Return a => Return (a, text)
    | Throw e => Throw e
    end.

(** The line up to and with the next line feed, and the text after it. *)
Fixpoint split_line (text : string) : string * string :=
  match text with
  | EmptyString => (EmptyString, EmptyString)
  | String c text' =>
      if Ascii.eqb c newline then (String c EmptyString, text')
      else let '(line, rest) := split_line text' in (String c line, rest)
  end.

(** [file.readline()]: the empty string at the end of the file. *)
Definition readline : reader string :=
  fun text => Return (split_line text).

(** [next(file)]: [StopIteration] at the end of the file. *)
Definition next_line : reader string :=
  fun text =>
    match text with
    | EmptyString => Throw StopIteration
    | String _ _ => Return (split_line text)
    end.

Fixpoint reader_each {A S : Type} (l : list A) (body : A -> S -> reader S)
    (s : S) : reader S :=
  match l with
  | [] => reader_ret s
  | a :: l' => s' <=~ body a s ;; reader_each l' body s'
  end.

(** *** Dictionaries and arrays *)

(** [d[key]] on a dictionary kept as the list of its items. *)
Fixpoint dict_get {V : Type} (d : list (string * V)) (key : string)
    : outcome V :=
  match d with
  | [] => Throw KeyError
  | (k, v) :: d' => if String.eqb k key then Return v else dict_get d' key
  end.

(** The dictionary with the value of an existing key replaced. *)
Fixpoint dict_replace {V : Type} (d : list (string * V)) (key : string)
    (v : V) : list (string * V) :=
  match d with
  | [] => []
  | (k, v') :: d' =>
      if String.eqb k key then (k, v) :: d'
      else (k, v') :: dict_replace d' key v
  end.

(** [a[index] = v] on an array, for an index that is not negative. *)
Fixpoint array_set {A : Type} (a : list A) (index : nat) (v : A)
    : result (list A) :=
  match a, index with
  | [], _ => Raise IndexError
  | _ :: a', O => Ok (v :: a')
  | x :: a', S i => a'' <- array_set a' i v ;; Ok (x :: a'')
  end.

(** *** [readPLY] *)

Section ReadPLY.

(** The conversions of Python and numpy that [readPLY] calls are parameters:
    [int] and [float] on a string, the casts of [numpy.array] to [float32]
    and from a string to [uint32], and the content [numpy.empty] happens to
    return for the array stored under a key. *)
Variable py_int : string -> outcome Z.
Variable py_float : string -> outcome Q.
Variable np_float32 : Q -> Q.
Variable np_uint32 : string -> outcome Z.
Variable np_empty : string -> nat -> list Q.

Definition vertex_data_keys : list string :=
  ["x"; "y"; "z"; "nx"; "ny"; "nz"; "r"; "g"; "b"; "u"; "v"]%string.

(** The dictionary [vertex_data]: one array of [num_vertices] entries per
    key; [numpy.empty] rejects a negative size. *)
Definition make_vertex_data (num_vertices : Z)
    : outcome (list (string * list Q)) :=
  if (num_vertices <? 0)%Z then Throw ValueError
  else Return (map (fun key => (key, np_empty key (Z.to_nat num_vertices)))
                   vertex_data_keys).

(** [attribute_indices[i]]: the dictionary has the keys 0, 1, ... in order
    and is kept as the list of its values. *)
Definition attribute_at (attribute_indices : list string) (i : nat)
    : outcome string :=
  match nth_error attribute_indices i with
  | Some attribute => Return attribute
  | None => Throw KeyError
  end.

(** The [while] loop over the property lines, with [remaining] standing for
    [len(vertex_data) - line_num]; it returns the dictionary and the last
    line read. *)
Fixpoint read_properties (remaining : nat) (attribute_indices : list string)
    (line : list string) : reader (list string * list string) :=
  match remaining with
  | O => reader_ret (attribute_indices, line)
  | S remaining' =>
      text <=~ readline ;;
      let line := split_ws (strip text) in
      first <=~ reader_lift (of_result (getitem line 0)) ;;
      if String.eqb first "element"
      then reader_ret (attribute_indices, line)
      else
        name <=~ reader_lift (of_result (getitem line 2)) ;;
        read_properties remaining' (attribute_indices ++ [name])%list line
  end.

(** One pass of the loop over the vertex lines. *)
Definition read_vertex (attribute_indices : list string) (index : nat)
    (vertex_data : list (string * list Q)) : reader (list (string * list Q)) :=
  text <=~ readline ;;
  let vertex := split_on " " (strip text) in
  reader_lift
    (loop_each (seq 0 (length vertex))
       (fun i vertex_data =>
          attribute <== attribute_at attribute_indices i ;;
          token <== of_result (getitem vertex (Z.of_nat i)) ;;
          value <== py_float token ;;
          array <== dict_get vertex_data attribute ;;
          array <== of_result (array_set array index value) ;;
          Return (dict_replace vertex_data attribute array))
       vertex_data).

(** [vertex_data[key][i]]. *)
Definition vertex_entry (vertex_data : list (string * list Q)) (key : string)
    (i : nat) : outcome Q :=
  array <== dict_get vertex_data key ;;
  of_result (getitem array (Z.of_nat i)).

(** The loop that gathers positions and normals. *)
Definition gather (vertex_data : list (string * list Q)) (num_vertices : nat)
    : outcome (list Q * list Q) :=
  loop_each (seq 0 num_vertices)
    (fun i lists =>
       let '(vertices, normals) := lists in
       x <== vertex_entry vertex_data "x" i ;;
       y <== vertex_entry vertex_data "y" i ;;
       z <== vertex_entry vertex_data "z" i ;;
       let vertices := (vertices ++ [x] ++ [y] ++ [z])%list in
       nx <== vertex_entry vertex_data "nx" i ;;
       ny <== vertex_entry vertex_data "ny" i ;;
       nz <== vertex_entry vertex_data "nz" i ;;
       let normals := (normals ++ [nx] ++ [ny] ++ [nz])%list in
       Return (vertices, normals))
    ([], []).

(** The [while] loop over the face lines.  Every pass that does not throw
    adds three entries to [faces], so [num_faces] passes are more than the
    loop can make and [fuel] never runs out while the test holds. *)
Fixpoint read_faces (fuel : nat) (num_faces : Z) (faces : list string)
    : reader (list string) :=
  if (Z.of_nat (length faces) <? num_faces)%Z
  then match fuel with
       | O => reader_ret faces
       | S fuel' =>
           text <=~ readline ;;
           let indices := split_on " " (strip text) in
           i1 <=~ reader_lift (of_result (getitem indices 1)) ;;
           i2 <=~ reader_lift (of_result (getitem indices 2)) ;;
           i3 <=~ reader_lift (of_result (getitem indices 3)) ;;
           read_faces fuel' num_faces (faces ++ [i1] ++ [i2] ++ [i3])%list
       end
  else reader_ret faces.

(** [numpy.array(faces, dtype=numpy.uint32)] on a list of strings. *)
Definition to_uint32_array (faces : list string) : outcome (list Z) :=
  loop_each faces
    (fun face array => index <== np_uint32 face ;; Return (array ++ [index])%list)
    [].

(** The header: the counts of vertices and faces, the arrays, and the
    attribute that each column of a vertex line holds. *)
Definition read_header
    : reader (Z * list (string * list Q) * list string * Z) :=
  filetype <=~ readline ;;
  format <=~ readline ;;
  comment <=~ readline ;;
  text <=~ readline ;;
  let line := split_on " " (strip text) in
  token <=~ reader_lift (of_result (getitem line 2)) ;;
  num_vertices <=~ reader_lift (py_int token) ;;
  vertex_data <=~ reader_lift (make_vertex_data num_vertices) ;;
  properties <=~ read_properties (length vertex_data) [] line ;;
  let '(attribute_indices, line) := properties in
  token <=~ reader_lift (of_result (getitem line 2)) ;;
  num_faces <=~ reader_lift (py_int token) ;;
  skipped <=~ next_line ;;
  skipped <=~ next_line ;;
  reader_ret (num_vertices, vertex_data, attribute_indices, num_faces).

Definition readPLY_body : reader (list Q * list Q * list Z) :=
  header <=~ read_header ;;
  let '(num_vertices, vertex_data, attribute_indices, num_faces) := header in
  vertex_data <=~ reader_each (seq 0 (Z.to_nat num_vertices))
                              (read_vertex attribute_indices) vertex_data ;;
  lists <=~ reader_lift (gather vertex_data (Z.to_nat num_vertices)) ;;
  let '(vertices, normals) := lists in
  faces <=~ read_faces (Z.to_nat num_faces) num_faces [] ;;
  let vertices := map np_float32 vertices in
  let normals := map np_float32 normals in
  faces <=~ reader_lift (to_uint32_array faces) ;;
  reader_ret (vertices, normals, faces).

(** [readPLY], on the text of the file. *)
Definition readPLY (file_text : string)
    : outcome (list Q * list Q * list Z) :=
  match readPLY_body (universal_newlines file_text) with
  | Return (mesh, _) => Return mesh
  | Throw e => Throw e
  end.

End ReadPLY.

(** *** Conversions for the examples *)

(** A decimal integer, as [format_int] writes it. *)
Definition parse_int (s : string) : outcome Z :=
  match DecimalString.NilZero.int_of_string s with
  | Some d => Return (Z.of_int d)
  | None => Throw ValueError
  end.

(** A fraction, as [format_fraction] writes it. *)
Definition parse_fraction (s : string) : outcome Q :=
  match split_on "/" s with
  | [n; d] =>
      n <== parse_int n ;;
      d <== parse_int d ;;
      match d with
      | Zpos p => Return (n # p)
      | _ => Throw ValueError
      end
  | _ => Throw ValueError
  end.

(** *** Well-formed pieces of text *)

Fixpoint string_forallb (test : ascii -> bool) (s : string) : bool :=
  match s with
  | EmptyString => true
  | String c s' => test c && string_forallb test s'
  end.

Definition not_space (c : ascii) : bool := negb (is_space c).

(** A token: not empty and free of spaces, so that it survives [strip] and
    [split]. *)
Definition is_token (s : string) : bool :=
  match s with
  | EmptyString => false
  | String _ _ => string_forallb not_space s
  end.

Definition not_line_end (c : ascii) : bool :=
  negb (Ascii.eqb c newline) && negb (Ascii.eqb c carriage_return).

(** A text that fits on one line. *)
Definition one_line (s : string) : bool := string_forallb not_line_end s.

(** A text whose first character is not a space. *)
Definition starts_unspaced (s : string) : bool :=
  match s with
  | EmptyString => false
  | String c _ => not_space c
  end.

(** *** The arrays while a written file is read *)

(** An array whose first [k] entries have been set to every third number of
    [source], from [offset] on, the others being as [numpy.empty] left them. *)
Definition filled_array (source : list Q) (offset k : nat) (unset : list Q)
    : list Q :=
  (map (fun i => nth (3 * i + offset) source 0%Q) (seq 0 k)
   ++ skipn k unset)%list.

(** [vertex_data] after [k] vertex lines of the file written from [vertices]
    and [normals]. *)
Definition vertex_data_after (np_empty : string -> nat -> list Q)
    (vertices normals : list Q) (m k : nat) : list (string * list Q) :=
  [("x", filled_array vertices 0 k (np_empty "x" m));
   ("y", filled_array vertices 1 k (np_empty "y" m));
   ("z", filled_array vertices 2 k (np_empty "z" m));
   ("nx", filled_array normals 0 k (np_empty "nx" m));
   ("ny", filled_array normals 1 k (np_empty "ny" m));
   ("nz", filled_array normals 2 k (np_empty "nz" m));
   ("r", np_empty "r" m);
   ("g", np_empty "g" m);
   ("b", np_empty "b" m);
   ("u", np_empty "u" m);
   ("v", np_empty "v" m)]%string.

(** The index strings of the first [n] face records. *)
Definition face_strings (n : nat) : list string :=
  flat_map (fun k => [format_int (3 * Z.of_nat k);
                      format_int (3 * Z.of_nat k + 1);
                      format_int (3 * Z.of_nat k + 2)])
           (seq 0 n).

(** The vertex indices of the first [n] faces. *)
Definition face_indices (n : nat) : list Z :=
  flat_map (fun k => [3 * Z.of_nat k; 3 * Z.of_nat k + 1;
                      3 * Z.of_nat k + 2]%Z)
           (seq 0 n).

(** A text without carriage return: universal newlines leave it as it is. *)
Definition no_carriage_return (s : string) : bool :=
  string_forallb (fun c => negb (Ascii.eqb c carriage_return)) s.

(** * Properties *)

(** ** The result monad and loops *)

Lemma for_each_appends {A B : Type} (g : A -> list B) (l : list A)
    (body : A -> list B -> result (list B)) :
  (forall a s, In a l -> body a s = Ok (s ++ g a)%list) ->
  forall s, for_each l body s = Ok (s ++ flat_map g l)%list.
Proof.
  induction l as [|a l IH]; intros Hbody s; simpl.
  - now rewrite app_nil_r.
  - rewrite Hbody by now left. simpl.
    rewrite IH by (intros; apply Hbody; now right).
    now rewrite app_assoc.
Qed.

(** ** Subscripting *)

Lemma getitem_in_range {A : Type} (l : list A) (i : Z) (d : A) :
  (0 <= i < Z.of_nat (length l))%Z ->
  getitem l i = Ok (nth (Z.to_nat i) l d).
Proof.
  intros Hi. unfold getitem.
  assert (E1 : (i <? 0)%Z = false) by (apply Z.ltb_ge; lia).
  assert (E2 : (Z.of_nat (length l) <=? i)%Z = false) by (apply Z.leb_gt; lia).
  rewrite E1, E1, E2. simpl.
  destruct (nth_error l (Z.to_nat i)) as [a|] eqn:E.
  - now rewrite (nth_error_nth _ _ d E).
  - apply nth_error_None in E. lia.
Qed.

Lemma getitem_wraps {A : Type} (l : list A) (i : Z) :
  (- Z.of_nat (length l) <= i < 0)%Z ->
  getitem l i = getitem l (i + Z.of_nat (length l)).
Proof.
  intros Hi. unfold getitem.
  assert (E1 : (i <? 0)%Z = true) by (apply Z.ltb_lt; lia).
  assert (E2 : (i + Z.of_nat (length l) <? 0)%Z = false)
    by (apply Z.ltb_ge; lia).
  rewrite E1, !E2. reflexivity.
Qed.

Lemma getitem_out_of_range {A : Type} (l : list A) (i : Z) :
  (i < - Z.of_nat (length l) \/ Z.of_nat (length l) <= i)%Z ->
  getitem l i = Raise IndexError.
Proof.
  intros Hi. unfold getitem.
  destruct (Z.ltb i 0) eqn:E1.
  - apply Z.ltb_lt in E1.
    assert (E2 : (i + Z.of_nat (length l) <? 0)%Z = true)
      by (apply Z.ltb_lt; lia).
    now rewrite E2.
  - apply Z.ltb_ge in E1.
    assert (E2 : (Z.of_nat (length l) <=? i)%Z = true)
      by (apply Z.leb_le; lia).
    rewrite E2. now rewrite orb_true_r.
Qed.

(** ** The case table *)

Lemma lookup_table_length : length lookup_table = 256%nat.
Proof. reflexivity. Qed.

Lemma lookup_table_checked : forallb check_entry lookup_table = true.
Proof. vm_compute. reflexivity. Qed.

Lemma check_entry_sound (l : list Z) :
  check_entry l = true ->
  (length l mod 3 = 0)%nat /\ Forall edge_index l.
Proof.
  unfold check_entry. rewrite andb_true_iff, Nat.eqb_eq, forallb_forall.
  intros [Hlen Hall]. split; [exact Hlen|].
  apply Forall_forall. intros e He. specialize (Hall e He).
  apply andb_true_iff in Hall. unfold edge_index. lia.
Qed.

Lemma lookup_in_range (case : Z) :
  (0 <= case <= 255)%Z ->
  _lookup_configuration case = Ok (nth (Z.to_nat case) lookup_table []).
Proof.
  intros Hc. unfold _lookup_configuration.
  rewrite (getitem_in_range lookup_table case []).
  - reflexivity.
  - rewrite lookup_table_length. lia.
Qed.

Lemma lookup_table_entry (case : Z) :
  (0 <= case <= 255)%Z ->
  check_entry (nth (Z.to_nat case) lookup_table []) = true.
Proof.
  intros Hc. pose proof lookup_table_checked as H.
  rewrite forallb_forall in H. apply H. apply nth_In.
  rewrite lookup_table_length. lia.
Qed.

(** C1. For every configuration in [0, 255] the lookup returns a list whose
    length is a multiple of 3 and whose elements all lie in [0, 11]; the
    lookups of 0 and of 255 return the empty list. *)
Theorem lookup_configuration_well_formed :
  (forall case : Z, (0 <= case <= 255)%Z ->
     exists configuration : list Z,
       _lookup_configuration case = Ok configuration
       /\ (length configuration mod 3 = 0)%nat
       /\ Forall (fun e => (0 <= e <= 11)%Z) configuration)
  /\ _lookup_configuration 0 = Ok []
  /\ _lookup_configuration 255 = Ok [].
Proof.
  split; [|split; reflexivity].
  intros case Hc. exists (nth (Z.to_nat case) lookup_table []).
  split; [now apply lookup_in_range|].
  apply check_entry_sound. now apply lookup_table_entry.
Qed.

Lemma lookup_configuration_well_formed_witness :
  exists configuration : list Z,
    _lookup_configuration 7 = Ok configuration
    /\ (length configuration mod 3 = 0)%nat
    /\ Forall (fun e => (0 <= e <= 11)%Z) configuration.
Proof.
  apply (proj1 lookup_configuration_well_formed 7%Z). lia.
Defined.

(** C5, as stated, fails: the subscript -1 is outside [0, 255], yet the
    lookup returns the last entry of the table instead of raising. *)
Lemma lookup_configuration_negative_counterexample :
  (-1 < 0)%Z
  /\ _lookup_configuration (-1) = Ok []
  /\ forall e, _lookup_configuration (-1) <> Raise e.
Proof.
  split; [lia|]. split; [reflexivity|].
  intros e H. discriminate H.
Qed.

(** C5, amended. A configuration index above 255 or below -256 raises
    [IndexError] and no list is returned; an index in [-256, -1] is not
    rejected: it is read from the end of the table, as index + 256. *)
Theorem lookup_configuration_out_of_range (case : Z) :
  ((case < -256 \/ 255 < case)%Z ->
     _lookup_configuration case = Raise IndexError)
  /\ ((-256 <= case <= -1)%Z ->
     _lookup_configuration case
     = Ok (nth (Z.to_nat (case + 256)) lookup_table [])).
Proof.
  split; intros Hc.
  - unfold _lookup_configuration.
    rewrite getitem_out_of_range; [reflexivity|].
    rewrite lookup_table_length. lia.
  - unfold _lookup_configuration.
    rewrite getitem_wraps by (rewrite lookup_table_length; lia).
    rewrite lookup_table_length.
    change (Z.of_nat 256) with 256%Z.
    apply (lookup_in_range (case + 256)). lia.
Qed.

Lemma lookup_configuration_out_of_range_witness :
  _lookup_configuration 256 = Raise IndexError
  /\ _lookup_configuration (-255)
     = Ok (nth (Z.to_nat (-255 + 256)) lookup_table []).
Proof.
  split.
  - apply (proj1 (lookup_configuration_out_of_range 256)). lia.
  - apply (proj2 (lookup_configuration_out_of_range (-255))). lia.
Defined.

(** ** The configuration of a cube *)

Lemma Qlt_bool_iff (x y : Q) : Qlt_bool x y = true <-> x < y.
Proof.
  unfold Qlt_bool. rewrite negb_true_iff. split.
  - intros H. apply Qnot_le_lt. intros Hle.
    apply Qle_bool_iff in Hle. congruence.
  - intros H. destruct (Qle_bool y x) eqn:E; [|reflexivity].
    apply Qle_bool_iff in E. exfalso. now apply (Qlt_not_le x y).
Qed.

Lemma cube_case_range (scalar_field : Q -> Q -> Q -> Q)
    (isovalue x y z stepsize : Q) :
  (0 <= cube_case scalar_field isovalue x y z stepsize <= 255)%Z.
Proof.
  unfold cube_case. split_corners; vm_compute; split; discriminate.
Qed.

(** C2. The configuration of a cube has the bit of a corner set if and only
    if the scalar field at that corner is strictly below the isovalue, with
    back-bottom-left = 1, back-bottom-right = 2, front-bottom-right = 4,
    front-bottom-left = 8, back-top-left = 16, back-top-right = 32,
    front-top-right = 64 and front-top-left = 128; no other bit is set. *)
Theorem cube_case_corner_bits (scalar_field : Q -> Q -> Q -> Q)
    (isovalue x y z stepsize : Q) :
  let case := cube_case scalar_field isovalue x y z stepsize in
  (bit_set case BACK_BOTTOM_LEFT = true <-> scalar_field x y z < isovalue)
  /\ (bit_set case BACK_BOTTOM_RIGHT = true
      <-> scalar_field (x + stepsize) y z < isovalue)
  /\ (bit_set case FRONT_BOTTOM_RIGHT = true
      <-> scalar_field (x + stepsize) y (z + stepsize) < isovalue)
  /\ (bit_set case FRONT_BOTTOM_LEFT = true
      <-> scalar_field x y (z + stepsize) < isovalue)
  /\ (bit_set case BACK_TOP_LEFT = true
      <-> scalar_field x (y + stepsize) z < isovalue)
  /\ (bit_set case BACK_TOP_RIGHT = true
      <-> scalar_field (x + stepsize) (y + stepsize) z < isovalue)
  /\ (bit_set case FRONT_TOP_RIGHT = true
      <-> scalar_field (x + stepsize) (y + stepsize) (z + stepsize) < isovalue)
  /\ (bit_set case FRONT_TOP_LEFT = true
      <-> scalar_field x (y + stepsize) (z + stepsize) < isovalue)
  /\ (forall n : Z, (8 <= n)%Z -> Z.testbit case n = false)
  /\ BACK_BOTTOM_LEFT = 1%Z /\ BACK_BOTTOM_RIGHT = 2%Z
  /\ FRONT_BOTTOM_RIGHT = 4%Z /\ FRONT_BOTTOM_LEFT = 8%Z
  /\ BACK_TOP_LEFT = 16%Z /\ BACK_TOP_RIGHT = 32%Z
  /\ FRONT_TOP_RIGHT = 64%Z /\ FRONT_TOP_LEFT = 128%Z.
Proof.
  intros case.
  assert (Hhigh : forall n : Z, (8 <= n)%Z -> Z.testbit case n = false).
  { intros n Hn. pose proof (cube_case_range scalar_field isovalue x y z stepsize)
      as Hr. fold case in Hr.
    destruct (Z.eq_dec case 0) as [->|Hnz]; [apply Z.testbit_0_l|].
    apply Z.bits_above_log2; [lia|].
    assert (Z.log2 case < 8)%Z; [|lia].
    apply Z.log2_lt_pow2; lia. }
  subst case. rewrite <- !Qlt_bool_iff.
  repeat split; try exact Hhigh; clear Hhigh; unfold cube_case;
    split_corners; vm_compute; congruence.
Qed.

Lemma cube_case_corner_bits_witness :
  (bit_set (cube_case hyperboloid 0 0 0 0 1) BACK_BOTTOM_LEFT = true
   <-> hyperboloid 0 0 0 < 0)
  /\ Z.testbit (cube_case hyperboloid 0 0 0 0 1) 8 = false.
Proof.
  split.
  - apply (proj1 (cube_case_corner_bits hyperboloid 0 0 0 0 1)).
  - apply (proj1 (proj2 (proj2 (proj2 (proj2 (proj2 (proj2 (proj2 (proj2
      (cube_case_corner_bits hyperboloid 0 0 0 0 1)))))))))).
    lia.
Defined.

(** ** Vertex positions *)

Lemma edge_midpoints_length : length edge_midpoints = 12%nat.
Proof. reflexivity. Qed.

Lemma edge_position_length (x y z stepsize : Q) (e : Z) :
  length (edge_position x y z stepsize e) = 3%nat.
Proof.
  unfold edge_position.
  now destruct (nth (Z.to_nat e) edge_midpoints (0, 0, 0)) as [[ex ey] ez].
Qed.

Lemma get_vertex_positions_closed (configuration : list Z)
    (x y z stepsize : Q) :
  Forall edge_index configuration ->
  _get_vertex_positions configuration (x, y, z) stepsize
  = Ok (flat_map (edge_position x y z stepsize) configuration).
Proof.
  intros Hall. unfold _get_vertex_positions.
  rewrite (for_each_appends (edge_position x y z stepsize)); [reflexivity|].
  intros e vs He. rewrite Forall_forall in Hall. specialize (Hall e He).
  rewrite (getitem_in_range edge_midpoints e (0, 0, 0))
    by (rewrite edge_midpoints_length; unfold edge_index in Hall; lia).
  unfold edge_position. cbv beta iota delta [bind].
  destruct (nth (Z.to_nat e) edge_midpoints (0, 0, 0)) as [[ex ey] ez].
  now rewrite <- !app_assoc.
Qed.

Lemma length_flat_map_const {A B : Type} (g : A -> list B) (n : nat)
    (l : list A) :
  (forall a, In a l -> length (g a) = n) ->
  length (flat_map g l) = (n * length l)%nat.
Proof.
  induction l as [|a l IH]; intros Hg; simpl.
  - lia.
  - rewrite length_app, Hg by now left.
    rewrite IH by (intros; apply Hg; now right). lia.
Qed.

Lemma nth_error_flat_map_block {A B : Type} (g : A -> list B) (n : nat)
    (l : list A) (i j : nat) (a : A) :
  (forall a', length (g a') = n) ->
  nth_error l i = Some a ->
  (j < n)%nat ->
  nth_error (flat_map g l) (n * i + j) = nth_error (g a) j.
Proof.
  intros Hg. revert i. induction l as [|a' l IH]; intros i Hi Hj.
  - destruct i; discriminate.
  - destruct i as [|i]; simpl in *.
    + injection Hi as ->. rewrite Nat.mul_0_r. simpl.
      apply nth_error_app1. rewrite Hg. exact Hj.
    + rewrite nth_error_app2 by (rewrite Hg; lia).
      rewrite Hg. replace (n * S i + j - n)%nat with (n * i + j)%nat by lia.
      now apply IH.
Qed.

(** C3. On a list of edge indices in [0, 11], [_get_vertex_positions]
    returns three numbers per edge index, in the order of the input: the
    i-th triple is the cube origin plus the step size times the i-th edge's
    entry of the edge-midpoint table. *)
Theorem get_vertex_positions_spec (configuration : list Z)
    (x y z stepsize : Q) :
  Forall (fun e => (0 <= e <= 11)%Z) configuration ->
  exists vertices : list Q,
    _get_vertex_positions configuration (x, y, z) stepsize = Ok vertices
    /\ length vertices = (3 * length configuration)%nat
    /\ forall (i : nat) (e : Z),
         nth_error configuration i = Some e ->
         exists edge_x edge_y edge_z : Q,
           nth_error edge_midpoints (Z.to_nat e) = Some (edge_x, edge_y, edge_z)
           /\ nth_error vertices (3 * i) = Some (x + stepsize * edge_x)
           /\ nth_error vertices (3 * i + 1) = Some (y + stepsize * edge_y)
           /\ nth_error vertices (3 * i + 2) = Some (z + stepsize * edge_z).
Proof.
  intros Hall.
  exists (flat_map (edge_position x y z stepsize) configuration).
  split; [now apply get_vertex_positions_closed|].
  split.
  { apply length_flat_map_const. intros. apply edge_position_length. }
  intros i e Hi.
  assert (He : (0 <= e <= 11)%Z).
  { rewrite Forall_forall in Hall. apply Hall.
    eapply nth_error_In; eassumption. }
  pose proof (nth_error_flat_map_block (edge_position x y z stepsize) 3
                configuration i) as Hblock.
  assert (Hlen : forall a', length (edge_position x y z stepsize a') = 3%nat)
    by (intros; apply edge_position_length).
  pose proof (Hblock 0%nat e Hlen Hi ltac:(lia)) as H0.
  pose proof (Hblock 1%nat e Hlen Hi ltac:(lia)) as H1.
  pose proof (Hblock 2%nat e Hlen Hi ltac:(lia)) as H2.
  rewrite Nat.add_0_r in H0. rewrite H0, H1, H2.
  unfold edge_position.
  assert (Hnth : nth_error edge_midpoints (Z.to_nat e)
                 = Some (nth (Z.to_nat e) edge_midpoints (0, 0, 0))).
  { apply nth_error_nth'. rewrite edge_midpoints_length. lia. }
  destruct (nth (Z.to_nat e) edge_midpoints (0, 0, 0)) as [[ex ey] ez].
  exists ex, ey, ez. repeat split. exact Hnth.
Qed.

Lemma get_vertex_positions_spec_witness :
  exists vertices : list Q,
    _get_vertex_positions [0; 8; 3]%Z (1, 2, 3) (1 # 4) = Ok vertices
    /\ length vertices = (3 * length [0; 8; 3]%Z)%nat
    /\ forall (i : nat) (e : Z),
         nth_error [0; 8; 3]%Z i = Some e ->
         exists edge_x edge_y edge_z : Q,
           nth_error edge_midpoints (Z.to_nat e) = Some (edge_x, edge_y, edge_z)
           /\ nth_error vertices (3 * i) = Some (1 + (1 # 4) * edge_x)
           /\ nth_error vertices (3 * i + 1) = Some (2 + (1 # 4) * edge_y)
           /\ nth_error vertices (3 * i + 2) = Some (3 + (1 # 4) * edge_z).
Proof.
  apply (get_vertex_positions_spec [0; 8; 3]%Z 1 2 3 (1 # 4)).
  repeat constructor; lia.
Defined.

(** ** The lattice scan *)

Lemma np_arange_nonzero (start stop step : Q) :
  ~ step == 0 ->
  np_arange start stop step = Ok (arange_values start stop step).
Proof.
  intros Hs. unfold np_arange.
  destruct (Qeq_bool step 0) eqn:E; [|reflexivity].
  apply Qeq_bool_iff in E. contradiction.
Qed.

Lemma np_arange_zero (start stop step : Q) :
  step == 0 -> np_arange start stop step = Raise ZeroDivisionError.
Proof.
  intros Hs. unfold np_arange. apply Qeq_bool_iff in Hs. now rewrite Hs.
Qed.

Lemma flat_map_singleton {A : Type} (l : list A) :
  flat_map (fun a => [a]) l = l.
Proof. induction l as [|a l IH]; simpl; congruence. Qed.

Lemma cube_entry_edges (scalar_field : Q -> Q -> Q -> Q)
    (isovalue x y z stepsize : Q) :
  (length (nth (Z.to_nat (cube_case scalar_field isovalue x y z stepsize))
              lookup_table []) mod 3 = 0)%nat
  /\ Forall edge_index
       (nth (Z.to_nat (cube_case scalar_field isovalue x y z stepsize))
            lookup_table []).
Proof.
  apply check_entry_sound, lookup_table_entry, cube_case_range.
Qed.

Lemma march_cube_closed (scalar_field : Q -> Q -> Q -> Q)
    (isovalue stepsize x y z : Q) (mesh_vertices : list Q) :
  march_cube scalar_field isovalue stepsize x y z mesh_vertices
  = Ok (mesh_vertices
        ++ cube_vertices scalar_field isovalue stepsize x y z)%list.
Proof.
  unfold march_cube.
  rewrite lookup_in_range by apply cube_case_range.
  cbv beta iota delta [bind].
  rewrite get_vertex_positions_closed by apply cube_entry_edges.
  rewrite (for_each_appends (fun v => [v])) by reflexivity.
  now rewrite flat_map_singleton.
Qed.

Lemma marching_cubes_closed (scalar_field : Q -> Q -> Q -> Q)
    (isovalue volume_min volume_max stepsize : Q) :
  ~ stepsize == 0 ->
  marching_cubes scalar_field isovalue volume_min volume_max stepsize
  = Ok (lattice_vertices scalar_field isovalue volume_min volume_max stepsize).
Proof.
  intros Hs. unfold marching_cubes, lattice_vertices.
  rewrite np_arange_nonzero by exact Hs.
  cbv beta iota zeta delta [bind].
  erewrite for_each_appends; [reflexivity|].
  intros y mesh_y _. cbv beta.
  erewrite for_each_appends; [reflexivity|].
  intros x mesh_x _. cbv beta.
  erewrite for_each_appends; [reflexivity|].
  intros z mesh_z _. cbv beta. apply march_cube_closed.
Qed.

Lemma marching_cubes_zero_step (scalar_field : Q -> Q -> Q -> Q)
    (isovalue volume_min volume_max stepsize : Q) :
  stepsize == 0 ->
  marching_cubes scalar_field isovalue volume_min volume_max stepsize
  = Raise ZeroDivisionError.
Proof.
  intros Hs. unfold marching_cubes. now rewrite np_arange_zero.
Qed.

(** C9. The configuration built for a cube always lies in [0, 255], so the
    lookup of it succeeds, and [marching_cubes] never fails with the
    [IndexError] of an out-of-range lookup. *)
Theorem cube_case_lookup_in_range (scalar_field : Q -> Q -> Q -> Q)
    (isovalue volume_min volume_max stepsize : Q) :
  (forall x y z : Q,
     (0 <= cube_case scalar_field isovalue x y z stepsize <= 255)%Z
     /\ exists edge_indices : list Z,
          _lookup_configuration
            (cube_case scalar_field isovalue x y z stepsize)
          = Ok edge_indices)
  /\ marching_cubes scalar_field isovalue volume_min volume_max stepsize
     <> Raise IndexError.
Proof.
  split.
  - intros x y z. split; [apply cube_case_range|].
    eexists. apply lookup_in_range, cube_case_range.
  - destruct (Qeq_dec stepsize 0) as [Hs|Hs].
    + rewrite marching_cubes_zero_step by exact Hs. discriminate.
    + rewrite marching_cubes_closed by exact Hs. discriminate.
Qed.

(** ** The sampled lattice *)

Lemma arange_values_empty (start stop step : Q) :
  (step < 0 /\ start <= stop) \/ (0 < step /\ stop <= start) ->
  arange_values start stop step = [].
Proof.
  intros H. unfold arange_values.
  assert (Hq : (stop - start) / step <= 0).
  { destruct H as [[Hs Hb]|[Hs Hb]].
    - setoid_replace ((stop - start) / step)
        with ((start - stop) / (- step)) by (field; lra).
      apply Qle_shift_div_r; lra.
    - apply Qle_shift_div_r; lra. }
  apply Qceiling_resp_le in Hq. change (Qceiling 0) with 0%Z in Hq.
  replace (Z.to_nat (Qceiling ((stop - start) / step))) with 0%nat by lia.
  reflexivity.
Qed.


(** C4, as stated, fails: with [volume_min = volume_max], and with a
    negative step size, the call is not rejected; it returns the empty mesh. *)
Lemma marching_cubes_invalid_volume_counterexample :
  (1 <= 0 \/ 0 <= 0)
  /\ marching_cubes hyperboloid 0 0 0 1 = Ok []
  /\ (-1 <= 0 \/ 1 <= 0)
  /\ marching_cubes hyperboloid 0 0 1 (-1) = Ok []
  /\ forall e, marching_cubes hyperboloid 0 0 0 1 <> Raise e
               /\ marching_cubes hyperboloid 0 0 1 (-1) <> Raise e.
Proof.
  split; [right; apply Qle_refl|]. split; [reflexivity|].
  split; [left; discriminate|]. split; [reflexivity|].
  intros e. split; discriminate.
Qed.

(** C4, amended. [marching_cubes] validates nothing itself.  A step size of
    zero fails in [numpy.arange], before any cube is scanned.  Every other
    input returns a mesh: the empty one when the step size is negative and
    [volume_min <= volume_max], and when the step size is positive and
    [volume_min >= volume_max]. *)
Theorem marching_cubes_invalid_volume (scalar_field : Q -> Q -> Q -> Q)
    (isovalue volume_min volume_max stepsize : Q) :
  (stepsize == 0 ->
     marching_cubes scalar_field isovalue volume_min volume_max stepsize
     = Raise ZeroDivisionError)
  /\ (~ stepsize == 0 ->
      exists mesh_vertices : list Q,
        marching_cubes scalar_field isovalue volume_min volume_max stepsize
        = Ok mesh_vertices)
  /\ ((stepsize < 0 /\ volume_min <= volume_max)
      \/ (0 < stepsize /\ volume_max <= volume_min) ->
      marching_cubes scalar_field isovalue volume_min volume_max stepsize
      = Ok []).
Proof.
  split; [apply marching_cubes_zero_step|]. split.
  - intros Hs. eexists. now apply marching_cubes_closed.
  - intros H. rewrite marching_cubes_closed by (destruct H as [[H _]|[H _]]; lra).
    unfold lattice_vertices. now rewrite arange_values_empty.
Qed.

Lemma marching_cubes_invalid_volume_witness :
  marching_cubes hyperboloid 0 (-2) 2 0 = Raise ZeroDivisionError
  /\ (exists mesh_vertices : list Q,
        marching_cubes hyperboloid 0 2 (-2) (-1) = Ok mesh_vertices)
  /\ marching_cubes hyperboloid 0 2 2 (1 # 2) = Ok [].
Proof.
  split; [|split].
  - apply (proj1 (marching_cubes_invalid_volume hyperboloid 0 (-2) 2 0)).
    reflexivity.
  - apply (proj1 (proj2
      (marching_cubes_invalid_volume hyperboloid 0 2 (-2) (-1)))).
    discriminate.
  - apply (proj2 (proj2
      (marching_cubes_invalid_volume hyperboloid 0 2 2 (1 # 2)))).
    right. split; [reflexivity|apply Qle_refl].
Defined.

(** ** Where the vertices lie *)






(** ** Normals *)

Lemma for_each_map {A B S : Type} (h : A -> B) (l : list A)
    (body : B -> S -> result S) (s : S) :
  for_each (map h l) body s = for_each l (fun a => body (h a)) s.
Proof.
  revert s. induction l as [|a l IH]; intros s; simpl; [reflexivity|].
  destruct (body (h a) s); simpl; [apply IH|reflexivity].
Qed.

Lemma np_arange_int_multiple (step : Z) (n : nat) :
  (0 < step)%Z ->
  np_arange_int 0 (Z.of_nat n * step) step
  = Ok (map (fun i => (0 + Z.of_nat i * step)%Z) (seq 0 n)).
Proof.
  intros Hs. unfold np_arange_int.
  destruct (Z.eqb_spec step 0) as [H|_]; [lia|].
  replace (- (Z.of_nat n * step - 0))%Z with ((- Z.of_nat n) * step)%Z by lia.
  rewrite Z.div_mul by lia.
  replace (Z.to_nat (- - Z.of_nat n)) with n by lia.
  reflexivity.
Qed.

Lemma triangle_normal_closed (normalize : vec3 -> vec3) (vertices : list Q)
    (k : nat) :
  (9 * k + 9 <= length vertices)%nat ->
  triangle_normal normalize vertices (0 + Z.of_nat k * 9)
  = Ok (normalize (triangle_cross vertices k)).
Proof.
  intros Hk. unfold triangle_normal, triangle_cross, vertex_at.
  rewrite !(fun i => getitem_in_range vertices i 0) by lia.
  cbv beta iota delta [bind].
  repeat match goal with
         | |- context [Z.to_nat ?z] =>
             let m := fresh "m" in
             let E := fresh "E" in
             remember (Z.to_nat z) as m eqn:E;
             match type of E with
             | m = Z.to_nat (0 + Z.of_nat k * 9) =>
                 replace m with (9 * k)%nat by lia
             | m = Z.to_nat (0 + Z.of_nat k * 9 + ?c) =>
                 replace m with (9 * k + Z.to_nat c)%nat by lia
             end;
             clear E
         end.
  simpl Z.to_nat.
  replace (9 * k + 3 + 1)%nat with (9 * k + 4)%nat by lia.
  replace (9 * k + 3 + 2)%nat with (9 * k + 5)%nat by lia.
  replace (9 * k + 6 + 1)%nat with (9 * k + 7)%nat by lia.
  replace (9 * k + 6 + 2)%nat with (9 * k + 8)%nat by lia.
  reflexivity.
Qed.

Lemma compute_normals_closed (normalize : vec3 -> vec3) (vertices : list Q)
    (n : nat) :
  length vertices = (9 * n)%nat ->
  compute_normals normalize vertices
  = Ok (flat_map
          (fun k => flat_shaded (normalize (triangle_cross vertices k)))
          (seq 0 n)).
Proof.
  intros Hlen. unfold compute_normals.
  replace (Z.of_nat (length vertices)) with (Z.of_nat n * 9)%Z by lia.
  rewrite np_arange_int_multiple by lia.
  cbv beta iota delta [bind]. rewrite for_each_map.
  erewrite for_each_appends; [reflexivity|].
  intros k normals Hk. apply in_seq in Hk. cbv beta.
  rewrite triangle_normal_closed by lia.
  unfold flat_shaded, vec3_coords. simpl.
  now rewrite <- !app_assoc.
Qed.

Lemma length_flat_shaded (v : vec3) : length (flat_shaded v) = 9%nat.
Proof. reflexivity. Qed.

(** The normals of a mesh of [n] triangles, position by position. *)
Lemma compute_normals_blocks (normalize : vec3 -> vec3) (vertices : list Q)
    (n : nat) :
  length vertices = (9 * n)%nat ->
  exists normals : list Q,
    compute_normals normalize vertices = Ok normals
    /\ length normals = (9 * n)%nat
    /\ forall k j : nat, (k < n)%nat -> (j < 3)%nat ->
         let normal := normalize (triangle_cross vertices k) in
         nth_error normals (9 * k + 3 * j) = Some (vec_x normal)
         /\ nth_error normals (9 * k + 3 * j + 1) = Some (vec_y normal)
         /\ nth_error normals (9 * k + 3 * j + 2) = Some (vec_z normal).
Proof.
  intros Hlen. rewrite (compute_normals_closed normalize vertices n Hlen).
  eexists. split; [reflexivity|]. split.
  - rewrite (length_flat_map_const _ 9) by (intros; apply length_flat_shaded).
    now rewrite length_seq.
  - intros k j Hk Hj normal.
    assert (Hnth : nth_error (seq 0 n) k = Some k).
    { rewrite nth_error_nth' with (d := 0%nat) by (rewrite length_seq; lia).
      now rewrite seq_nth. }
    pose proof (fun i =>
      nth_error_flat_map_block
        (fun k => flat_shaded (normalize (triangle_cross vertices k)))
        9 (seq 0 n) k i k (fun _ => eq_refl) Hnth) as Hblock.
    rewrite <- !Nat.add_assoc.
    rewrite !Hblock by lia. fold normal.
    destruct j as [|[|[|j]]]; [| | |lia]; repeat split; reflexivity.
Qed.

Lemma length_flat_map_divide {A B : Type} (g : A -> list B) (d : nat)
    (l : list A) :
  (forall a, Nat.divide d (length (g a))) ->
  Nat.divide d (length (flat_map g l)).
Proof.
  intros Hg. induction l as [|a l IH]; simpl.
  - apply Nat.divide_0_r.
  - rewrite length_app. now apply Nat.divide_add_r.
Qed.

Lemma length_cube_vertices (scalar_field : Q -> Q -> Q -> Q)
    (isovalue stepsize x y z : Q) :
  Nat.divide 9 (length (cube_vertices scalar_field isovalue stepsize x y z)).
Proof.
  unfold cube_vertices.
  rewrite (length_flat_map_const _ 3) by (intros; apply edge_position_length).
  destruct (cube_entry_edges scalar_field isovalue x y z stepsize) as [H _].
  apply Nat.Lcm0.mod_divide in H. destruct H as [m ->].
  exists m. lia.
Qed.

Lemma length_lattice_vertices (scalar_field : Q -> Q -> Q -> Q)
    (isovalue volume_min volume_max stepsize : Q) :
  Nat.divide 9
    (length (lattice_vertices scalar_field isovalue volume_min volume_max
                              stepsize)).
Proof.
  unfold lattice_vertices.
  do 3 (apply length_flat_map_divide; intros).
  apply length_cube_vertices.
Qed.

(** C7. The vertex list [marching_cubes] returns has a length that is a
    multiple of 9.  On a vertex list whose length is a multiple of 9,
    [compute_normals] returns a list of the same length, in which the normal
    [normalize (cross (B - A) (C - A))] of every triangle [A B C] stands at
    each of the triangle's three vertices. *)
Theorem mesh_and_normals_shape :
  (forall (scalar_field : Q -> Q -> Q -> Q)
          (isovalue volume_min volume_max stepsize : Q),
     (~ stepsize == 0 ->
      exists mesh_vertices : list Q,
        marching_cubes scalar_field isovalue volume_min volume_max stepsize
        = Ok mesh_vertices)
     /\ forall mesh_vertices : list Q,
          marching_cubes scalar_field isovalue volume_min volume_max stepsize
          = Ok mesh_vertices ->
          (length mesh_vertices mod 9 = 0)%nat)
  /\ (forall (normalize : vec3 -> vec3) (vertices : list Q),
        (length vertices mod 9 = 0)%nat ->
        exists normals : list Q,
          compute_normals normalize vertices = Ok normals
          /\ length normals = length vertices
          /\ forall k j : nat,
               (k < length vertices / 9)%nat -> (j < 3)%nat ->
               let vertexA := vertex_at vertices (9 * k) in
               let vertexB := vertex_at vertices (9 * k + 3) in
               let vertexC := vertex_at vertices (9 * k + 6) in
               let normal :=
                 normalize (cross (vec3_sub vertexB vertexA)
                                  (vec3_sub vertexC vertexA)) in
               nth_error normals (9 * k + 3 * j) = Some (vec_x normal)
               /\ nth_error normals (9 * k + 3 * j + 1) = Some (vec_y normal)
               /\ nth_error normals (9 * k + 3 * j + 2) = Some (vec_z normal)).
Proof.
  split.
  - intros scalar_field isovalue volume_min volume_max stepsize. split.
    + intros Hs. eexists. now apply marching_cubes_closed.
    + intros mesh_vertices Hmesh.
      destruct (Qeq_dec stepsize 0) as [Hs|Hs].
      * rewrite marching_cubes_zero_step in Hmesh by exact Hs. discriminate.
      * rewrite marching_cubes_closed in Hmesh by exact Hs.
        injection Hmesh as <-.
        apply Nat.Lcm0.mod_divide, length_lattice_vertices.
  - intros normalize vertices Hmod.
    apply Nat.Lcm0.mod_divide in Hmod. destruct Hmod as [n Hn].
    assert (Hlen : length vertices = (9 * n)%nat) by lia.
    destruct (compute_normals_blocks normalize vertices n Hlen)
      as [normals [Hrun [Hlength Hblocks]]].
    exists normals. split; [exact Hrun|]. split; [lia|].
    intros k j Hk Hj. apply Hblocks; [|exact Hj].
    rewrite Hlen, Nat.mul_comm, Nat.div_mul in Hk by lia. exact Hk.
Qed.

Lemma mesh_and_normals_shape_witness :
  (exists mesh_vertices : list Q,
     marching_cubes hyperboloid 0 (-1) 1 (1 # 2) = Ok mesh_vertices)
  /\ (length (lattice_vertices hyperboloid 0 (-1) 1 (1 # 2)) mod 9 = 0)%nat
  /\ exists normals : list Q,
       compute_normals (fun v => v) corner_triangle = Ok normals
       /\ length normals = length corner_triangle.
Proof.
  split; [|split].
  - apply (proj1 (proj1 mesh_and_normals_shape hyperboloid 0 (-1) 1 (1 # 2))).
    discriminate.
  - apply (proj2 (proj1 mesh_and_normals_shape hyperboloid 0 (-1) 1 (1 # 2))).
    vm_compute. reflexivity.
  - destruct (proj2 mesh_and_normals_shape (fun v => v) corner_triangle
                eq_refl) as [normals [Hrun [Hlen _]]].
    exists normals. split; assumption.
Defined.

(** ** Degenerate triangles *)

Lemma firstn_skipn_flat_map_block {A B : Type} (g : A -> list B) (n : nat)
    (l : list A) (k : nat) (a : A) :
  (forall a', length (g a') = n) ->
  nth_error l k = Some a ->
  firstn n (skipn (n * k) (flat_map g l)) = g a.
Proof.
  intros Hg. revert k. induction l as [|a' l IH]; intros k Hk.
  - destruct k; discriminate.
  - destruct k as [|k]; simpl in Hk.
    + injection Hk as ->. rewrite Nat.mul_0_r. simpl.
      rewrite firstn_app, <- (Hg a), firstn_all, Nat.sub_diag.
      simpl. apply app_nil_r.
    + simpl flat_map. replace (n * S k)%nat with (length (g a') + n * k)%nat
        by (rewrite Hg; lia).
      rewrite skipn_app, skipn_all2 by lia.
      replace (length (g a') + n * k - length (g a'))%nat with (n * k)%nat
        by lia.
      simpl. now apply IH.
Qed.

(** C6, as stated, fails: for the collinear triangle the normals are not a
    fallback fixed by [compute_normals]; they are whatever the library's
    [normalize] returns on the cross product of length zero. *)
Lemma compute_normals_degenerate_counterexample :
  zero_length (triangle_cross collinear_triangle 0)
  /\ ~ (exists fallback : vec3,
          forall normalize : vec3 -> vec3,
            compute_normals normalize collinear_triangle
            = Ok (flat_shaded fallback)).
Proof.
  split.
  - unfold zero_length. vm_compute. repeat split; reflexivity.
  - intros [fallback H].
    pose proof (H (fun _ => mk_vec3 0 0 0)) as H0.
    pose proof (H (fun _ => mk_vec3 1 0 0)) as H1.
    vm_compute in H0, H1. rewrite <- H1 in H0. discriminate H0.
Qed.

(** C6, amended. [compute_normals] does not look at the magnitude of the
    cross product.  For a degenerate triangle of a vertex list whose length
    is a multiple of 9, the nine numbers it emits are the coordinates of
    [normalize] applied to that cross product of length zero, three times
    over; no fallback is put in their place. *)
Theorem compute_normals_degenerate (normalize : vec3 -> vec3)
    (vertices : list Q) (k : nat) :
  (length vertices mod 9 = 0)%nat ->
  (k < length vertices / 9)%nat ->
  zero_length (triangle_cross vertices k) ->
  exists (normals : list Q) (zero : vec3),
    compute_normals normalize vertices = Ok normals
    /\ zero = triangle_cross vertices k
    /\ zero_length zero
    /\ firstn 9 (skipn (9 * k) normals)
       = (vec3_coords (normalize zero) ++ vec3_coords (normalize zero)
          ++ vec3_coords (normalize zero))%list.
Proof.
  intros Hmod Hk Hzero.
  apply Nat.Lcm0.mod_divide in Hmod. destruct Hmod as [n Hn].
  assert (Hlen : length vertices = (9 * n)%nat) by lia.
  rewrite Hlen, Nat.mul_comm, Nat.div_mul in Hk by lia.
  rewrite (compute_normals_closed normalize vertices n Hlen).
  eexists. exists (triangle_cross vertices k).
  split; [reflexivity|]. split; [reflexivity|]. split; [exact Hzero|].
  rewrite (firstn_skipn_flat_map_block _ 9 _ k k).
  - reflexivity.
  - intros. apply length_flat_shaded.
  - rewrite nth_error_nth' with (d := 0%nat) by (rewrite length_seq; lia).
    now rewrite seq_nth.
Qed.

Lemma compute_normals_degenerate_witness :
  exists (normals : list Q) (zero : vec3),
    compute_normals (fun v => v) collinear_triangle = Ok normals
    /\ zero = triangle_cross collinear_triangle 0
    /\ zero_length zero
    /\ firstn 9 (skipn (9 * 0) normals)
       = (vec3_coords zero ++ vec3_coords zero ++ vec3_coords zero)%list.
Proof.
  apply (compute_normals_degenerate (fun v => v) collinear_triangle 0).
  - reflexivity.
  - vm_compute. reflexivity.
  - unfold zero_length. vm_compute. repeat split; reflexivity.
Defined.

(** ** The mesh file *)

Lemma append_assoc (a b c : string) : ((a ++ b) ++ c = a ++ (b ++ c))%string.
Proof. induction a as [|ch a IH]; simpl; congruence. Qed.

Lemma append_empty_r (a : string) : (a ++ EmptyString = a)%string.
Proof. induction a as [|ch a IH]; simpl; congruence. Qed.


Lemma io_bind_write {B : Type} (s : string) (k : unit -> file_io B)
    (text : string) :
  io_bind (file_write s) k text = k tt (text ++ s)%string.
Proof. reflexivity. Qed.

Lemma io_bind_lift_ok {A B : Type} (a : A) (k : A -> file_io B)
    (text : string) :
  io_bind (io_lift (Ok a)) k text = k a text.
Proof. reflexivity. Qed.

Lemma io_for_each_writes {A B : Type} (record : A -> string) (l : list A)
    (body : A -> file_io unit) (k : unit -> file_io B) (text : string) :
  (forall a t, In a l -> body a t = (Ok tt, t ++ record a)%string) ->
  io_bind (io_for_each l body) k text
  = k tt (text ++ join (map record l))%string.
Proof.
  revert text. induction l as [|a l IH]; intros text Hbody.
  - simpl. now rewrite append_empty_r.
  - simpl. unfold io_bind at 1 2. rewrite Hbody by now left.
    fold (io_bind (io_for_each l body) k (text ++ record a)%string).
    rewrite IH by (intros; apply Hbody; now right).
    now rewrite append_assoc.
Qed.

Lemma io_for_each_map {A B : Type} (h : A -> B) (l : list A)
    (body : B -> file_io unit) :
  io_for_each (map h l) body = io_for_each l (fun a => body (h a)).
Proof.
  induction l as [|a l IH]; simpl; [reflexivity|]. now rewrite IH.
Qed.

Lemma np_arange_int_from_zero (stop step : Z) :
  (0 < step)%Z -> (0 <= stop)%Z ->
  np_arange_int 0 stop step
  = Ok (map (fun i => (0 + Z.of_nat i * step)%Z)
            (seq 0 (Z.to_nat ((stop + step - 1) / step)))).
Proof.
  intros Hs Hstop. unfold np_arange_int.
  destruct (Z.eqb_spec step 0) as [H|_]; [lia|].
  replace (- (- (stop - 0) / step))%Z with ((stop + step - 1) / step)%Z;
    [reflexivity|].
  pose proof (Z.div_mod (- (stop - 0)) step ltac:(lia)) as H1.
  pose proof (Z.mod_pos_bound (- (stop - 0)) step Hs) as H2.
  symmetry. apply Z.div_unique with (r := (step - 1 - (- (stop - 0)) mod step)%Z);
    [lia|].
  nia.
Qed.

Lemma writePLY_vertex_line (format_float : Q -> string)
    (vertices normals : list Q) (k : nat) (text : string) :
  (3 * k + 3 <= length vertices)%nat ->
  (length vertices <= length normals)%nat ->
  (v0 <~ io_lift (getitem vertices (0 + Z.of_nat k * 3)) ;;
   v1 <~ io_lift (getitem vertices (0 + Z.of_nat k * 3 + 1)) ;;
   v2 <~ io_lift (getitem vertices (0 + Z.of_nat k * 3 + 2)) ;;
   n0 <~ io_lift (getitem normals (0 + Z.of_nat k * 3)) ;;
   n1 <~ io_lift (getitem normals (0 + Z.of_nat k * 3 + 1)) ;;
   n2 <~ io_lift (getitem normals (0 + Z.of_nat k * 3 + 2)) ;;
   file_write (format_float v0 ++ " " ++ format_float v1 ++ " "
               ++ format_float v2 ++ " " ++ format_float n0 ++ " "
               ++ format_float n1 ++ " " ++ format_float n2 ++ nl)) text
  = (Ok tt, (text ++ vertex_record format_float vertices normals k)%string).
Proof.
  intros Hk Hn.
  rewrite !(fun i => getitem_in_range vertices i 0%Q) by lia.
  rewrite !(fun i => getitem_in_range normals i 0%Q) by lia.
  rewrite !io_bind_lift_ok. unfold file_write, vertex_record.
  replace (Z.to_nat (0 + Z.of_nat k * 3)) with (3 * k)%nat by lia.
  replace (Z.to_nat (0 + Z.of_nat k * 3 + 1)) with (3 * k + 1)%nat by lia.
  replace (Z.to_nat (0 + Z.of_nat k * 3 + 2)) with (3 * k + 2)%nat by lia.
  reflexivity.
Qed.

Lemma writePLY_face_line (k : nat) (text : string) :
  file_write ("3 " ++ format_int (0 + Z.of_nat k * 3) ++ " "
              ++ format_int (0 + Z.of_nat k * 3 + 1) ++ " "
              ++ format_int (0 + Z.of_nat k * 3 + 2) ++ nl) text
  = (Ok tt, (text ++ face_record k)%string).
Proof.
  unfold file_write, face_record.
  replace (0 + Z.of_nat k * 3)%Z with (3 * Z.of_nat k)%Z by lia.
  reflexivity.
Qed.

(** The whole file, when every subscript of the vertex loop is in range. *)
Lemma writePLY_closed (format_float : Q -> string) (vertices normals : list Q)
    (comment : option string) (m : nat) :
  length vertices = (3 * m)%nat ->
  (length vertices <= length normals)%nat ->
  writePLY format_float vertices normals comment
  = (Ok tt,
     (ply_header comment (Z.of_nat m) (Z.of_nat m / 3)
      ++ join (map (vertex_record format_float vertices normals) (seq 0 m))
      ++ join (map face_record (seq 0 ((m + 2) / 3))))%string).
Proof.
  intros Hlen Hn. unfold writePLY, writePLY_body.
  replace (Z.of_nat (length vertices) / 3)%Z with (Z.of_nat m)
    by (rewrite Hlen; apply Z.div_unique with (r := 0%Z); lia).
  rewrite !io_bind_write.
  replace (Z.of_nat (length vertices)) with (Z.of_nat m * 3)%Z by lia.
  rewrite np_arange_int_multiple by lia.
  rewrite io_bind_lift_ok, io_for_each_map.
  rewrite (io_for_each_writes (vertex_record format_float vertices normals)).
  2:{ intros k t Hk. apply in_seq in Hk.
      apply writePLY_vertex_line; lia. }
  rewrite np_arange_int_from_zero by lia.
  rewrite io_bind_lift_ok, io_for_each_map.
  replace (Z.to_nat ((Z.of_nat m + 3 - 1) / 3)) with ((m + 2) / 3)%nat
    by (apply Nat2Z.inj; rewrite Z2Nat.id by (apply Z.div_pos; lia);
        rewrite Nat2Z.inj_div; f_equal; lia).
  assert (Hfaces :
    forall text,
      io_for_each (seq 0 ((m + 2) / 3))
        (fun a =>
           file_write ("3 " ++ format_int (0 + Z.of_nat a * 3) ++ " "
                       ++ format_int (0 + Z.of_nat a * 3 + 1) ++ " "
                       ++ format_int (0 + Z.of_nat a * 3 + 2) ++ nl)) text
      = (Ok tt, (text ++ join (map face_record (seq 0 ((m + 2) / 3))))%string)).
  { intros text.
    pose proof (io_for_each_writes face_record (seq 0 ((m + 2) / 3))
      (fun a =>
         file_write ("3 " ++ format_int (0 + Z.of_nat a * 3) ++ " "
                     ++ format_int (0 + Z.of_nat a * 3 + 1) ++ " "
                     ++ format_int (0 + Z.of_nat a * 3 + 2) ++ nl))
      (fun _ => io_ret tt) text
      (fun a t _ => writePLY_face_line a t)) as H.
    unfold io_bind in H. unfold io_ret in H.
    destruct (io_for_each _ _ text) as [[[]|e] text'];
      [exact H|discriminate H]. }
  rewrite Hfaces. unfold ply_header.
  f_equal. rewrite !append_assoc. reflexivity.
Qed.





(** ** Worked examples *)

(** Only the corner at the origin of the unit cube lies below the isovalue:
    case 1, one triangle on the midpoints of edges 0, 8 and 3. *)
Example single_corner_case :
  cube_case (fun x y z => x + y + z) (1 # 2) 0 0 0 1 = 1%Z.
Proof. reflexivity. Qed.

Example single_corner_lookup : _lookup_configuration 1 = Ok [0; 8; 3]%Z.
Proof. reflexivity. Qed.

Example single_corner_mesh :
  marching_cubes (fun x y z => x + y + z) (1 # 2) 0 1 1
  = Ok [1 # 2; 0; 0; 0; 1 # 2; 0; 0; 0; 1 # 2].
Proof. vm_compute. reflexivity. Qed.

(** A field that is above the isovalue everywhere gives no vertex. *)
Example empty_field_mesh :
  marching_cubes (fun _ _ _ => 1) 0 (-1) 1 (1 # 2) = Ok [].
Proof. vm_compute. reflexivity. Qed.

(** With the identity in place of [normalize], the corner triangle gets its
    cross product (0, 0, 1) three times. *)
Example corner_triangle_normals :
  compute_normals (fun v => v) corner_triangle
  = Ok [0; 0; 1; 0; 0; 1; 0; 0; 1].
Proof. vm_compute. reflexivity. Qed.

(** A vertex list that is not made of whole triangles runs off its end. *)
Example ragged_normals :
  compute_normals (fun v => v) ragged_vertices = Raise IndexError.
Proof. vm_compute. reflexivity. Qed.

Example arange_thirds :
  np_arange 0 1 (1 # 3) = Ok [0 # 3; 1 # 3; 2 # 3].
Proof. vm_compute. reflexivity. Qed.

Example arange_descending :
  np_arange 1 0 (- (1 # 2)) = Ok [2 # 2; 1 # 2].
Proof. vm_compute. reflexivity. Qed.

(** * Further properties *)

(** ** Crossed edges *)

Lemma cube_case_bit (scalar_field : Q -> Q -> Q -> Q)
    (isovalue x y z stepsize : Q) (corner : bool * bool * bool) :
  bit_set (cube_case scalar_field isovalue x y z stepsize) (corner_mask corner)
  = corner_below scalar_field isovalue x y z stepsize corner.
Proof.
  destruct corner as [[[|] [|]] [|]]; unfold corner_below, shift, cube_case;
    split_corners; reflexivity.
Qed.

Lemma table_crossings_checked :
  forallb (fun c => check_crossings (Z.of_nat c) (nth c lookup_table []))
          (seq 0 256)
  = true.
Proof. vm_compute. reflexivity. Qed.


Lemma existsb_eqb_In (e : Z) (row : list Z) :
  existsb (Z.eqb e) row = true <-> In e row.
Proof.
  rewrite existsb_exists. split.
  - intros [e' [Hin He]]. apply Z.eqb_eq in He. now subst.
  - intros Hin. exists e. split; [exact Hin|apply Z.eqb_refl].
Qed.

Lemma row_crossings (case e : Z) :
  (0 <= case <= 255)%Z -> (0 <= e <= 11)%Z ->
  In e (nth (Z.to_nat case) lookup_table []) <-> edge_crossed case e = true.
Proof.
  intros Hc He. pose proof table_crossings_checked as H.
  rewrite forallb_forall in H.
  specialize (H (Z.to_nat case) ltac:(apply in_seq; lia)).
  rewrite Z2Nat.id in H by lia. unfold check_crossings in H.
  rewrite forallb_forall in H.
  assert (Hin : In e (range 12)).
  { unfold range. apply in_map_iff. exists (Z.to_nat e).
    split; [lia|apply in_seq; lia]. }
  specialize (H e Hin). apply eqb_prop in H.
  rewrite <- existsb_eqb_In, H. reflexivity.
Qed.

Lemma edge_position_midpoint (x y z stepsize : Q) (e : Z) :
  (0 <= e <= 11)%Z ->
  Forall2 (fun m ends => 2 * m == fst ends + snd ends)
          (edge_position x y z stepsize e)
          (combine (corner_position x y z stepsize (fst (edge_ends e)))
                   (corner_position x y z stepsize (snd (edge_ends e)))).
Proof.
  intros He.
  assert (Hcases : (e = 0 \/ e = 1 \/ e = 2 \/ e = 3 \/ e = 4 \/ e = 5
                    \/ e = 6 \/ e = 7 \/ e = 8 \/ e = 9 \/ e = 10
                    \/ e = 11)%Z) by lia.
  repeat (destruct Hcases as [->|Hcases]); try subst e;
    unfold edge_position, edge_ends, corner_position, shift; simpl;
    repeat constructor; simpl; ring.
Qed.

(** X1. The edge indices looked up for a cube are exactly the edges of the
    cube whose two end corners are classified differently, one below the
    isovalue and one not; and the vertex placed for an edge is the midpoint
    of those two corners. *)
Theorem vertices_on_crossed_edges (scalar_field : Q -> Q -> Q -> Q)
    (isovalue x y z stepsize : Q) :
  exists row : list Z,
    _lookup_configuration (cube_case scalar_field isovalue x y z stepsize)
    = Ok row
    /\ (forall e : Z,
          In e row
          <-> (0 <= e <= 11)%Z
              /\ corner_below scalar_field isovalue x y z stepsize
                              (fst (edge_ends e))
                 <> corner_below scalar_field isovalue x y z stepsize
                                 (snd (edge_ends e)))
    /\ (forall e : Z,
          In e row ->
          Forall2 (fun m ends => 2 * m == fst ends + snd ends)
                  (edge_position x y z stepsize e)
                  (combine
                     (corner_position x y z stepsize (fst (edge_ends e)))
                     (corner_position x y z stepsize (snd (edge_ends e))))).
Proof.
  pose proof (cube_case_range scalar_field isovalue x y z stepsize) as Hr.
  destruct (cube_entry_edges scalar_field isovalue x y z stepsize)
    as [_ Hedges].
  rewrite Forall_forall in Hedges.
  exists (nth (Z.to_nat (cube_case scalar_field isovalue x y z stepsize))
              lookup_table []).
  split; [now apply lookup_in_range|]. split.
  - intros e. rewrite <- !cube_case_bit. split.
    + intros Hin. pose proof (Hedges e Hin) as He. split; [exact He|].
      apply (row_crossings _ _ Hr He) in Hin. unfold edge_crossed in Hin.
      intros Heq. rewrite Heq, xorb_nilpotent in Hin. discriminate.
    + intros [He Hne]. apply (row_crossings _ _ Hr He).
      unfold edge_crossed.
      destruct (bit_set _ (corner_mask (fst (edge_ends e)))),
               (bit_set _ (corner_mask (snd (edge_ends e))));
        try reflexivity; now elim Hne.
  - intros e Hin. apply edge_position_midpoint. exact (Hedges e Hin).
Qed.

Lemma vertices_on_crossed_edges_witness :
  exists row : list Z,
    _lookup_configuration (cube_case hyperboloid 0 0 0 0 1) = Ok row
    /\ Forall2 (fun m ends => 2 * m == fst ends + snd ends)
               (edge_position 0 0 0 1 1)
               (combine (corner_position 0 0 0 1 (fst (edge_ends 1)))
                        (corner_position 0 0 0 1 (snd (edge_ends 1)))).
Proof.
  destruct (vertices_on_crossed_edges hyperboloid 0 0 0 0 1)
    as [row [Hrow [_ Hmid]]].
  exists row. split; [exact Hrow|].
  apply Hmid. vm_compute in Hrow. injection Hrow as <-.
  vm_compute. tauto.
Defined.

(** ** Cubes that emit nothing *)

Lemma table_empty_rows_checked :
  forallb (fun c => check_empty_row (Z.of_nat c) (nth c lookup_table []))
          (seq 0 256)
  = true.
Proof. vm_compute. reflexivity. Qed.

Lemma all_corners_complete (corner : bool * bool * bool) :
  In corner all_corners.
Proof. destruct corner as [[[|] [|]] [|]]; simpl; tauto. Qed.

Lemma row_empty_iff_uniform (case : Z) :
  (0 <= case <= 255)%Z ->
  nth (Z.to_nat case) lookup_table [] = []
  <-> forall corner,
        bit_set case (corner_mask corner)
        = bit_set case (corner_mask (false, false, false)).
Proof.
  intros Hc. pose proof table_empty_rows_checked as H.
  rewrite forallb_forall in H.
  specialize (H (Z.to_nat case) ltac:(apply in_seq; lia)).
  rewrite Z2Nat.id in H by lia. apply eqb_prop in H.
  assert (Hu : uniform_case case = true
               <-> forall corner,
                     bit_set case (corner_mask corner)
                     = bit_set case (corner_mask (false, false, false))).
  { unfold uniform_case. rewrite forallb_forall. split.
    - intros Hall corner. apply eqb_prop, Hall, all_corners_complete.
    - intros Hall corner _. rewrite Hall. apply eqb_reflx. }
  rewrite <- Hu, <- H.
  destruct (nth (Z.to_nat case) lookup_table []); split; congruence.
Qed.

Lemma cube_vertices_nil (scalar_field : Q -> Q -> Q -> Q)
    (isovalue stepsize x y z : Q) :
  cube_vertices scalar_field isovalue stepsize x y z = []
  <-> nth (Z.to_nat (cube_case scalar_field isovalue x y z stepsize))
          lookup_table [] = [].
Proof.
  unfold cube_vertices.
  destruct (nth (Z.to_nat (cube_case scalar_field isovalue x y z stepsize))
                lookup_table []) as [|e row]; [tauto|].
  split; [|discriminate]. simpl. intros H.
  apply (f_equal (@length Q)) in H.
  rewrite length_app, edge_position_length in H. discriminate H.
Qed.

(** X2. A cube contributes no vertex if and only if its eight corners are
    classified alike: all below the isovalue, or none. *)
Theorem cube_empty_iff_uniform (scalar_field : Q -> Q -> Q -> Q)
    (isovalue stepsize x y z : Q) :
  cube_vertices scalar_field isovalue stepsize x y z = []
  <-> forall corner : bool * bool * bool,
        corner_below scalar_field isovalue x y z stepsize corner
        = corner_below scalar_field isovalue x y z stepsize
                       (false, false, false).
Proof.
  rewrite cube_vertices_nil, row_empty_iff_uniform by apply cube_case_range.
  split; intros H corner; specialize (H corner);
    now rewrite !cube_case_bit in *.
Qed.

Lemma flat_map_nil {A B : Type} (g : A -> list B) (l : list A) :
  (forall a, In a l -> g a = []) -> flat_map g l = [].
Proof.
  induction l as [|a l IH]; intros Hg; simpl; [reflexivity|].
  rewrite Hg by now left. apply IH. intros; apply Hg; now right.
Qed.

(** X3. A field that is below the isovalue everywhere, or nowhere, gives the
    empty mesh, whatever the lattice. *)
Theorem uniform_field_empty_mesh (scalar_field : Q -> Q -> Q -> Q)
    (isovalue volume_min volume_max stepsize : Q) :
  ~ stepsize == 0 ->
  (forall x y z : Q, scalar_field x y z < isovalue)
  \/ (forall x y z : Q, ~ scalar_field x y z < isovalue) ->
  marching_cubes scalar_field isovalue volume_min volume_max stepsize = Ok [].
Proof.
  intros Hs Hfield. rewrite marching_cubes_closed by exact Hs.
  f_equal. unfold lattice_vertices.
  do 3 (apply flat_map_nil; intros ? _).
  apply cube_vertices_nil, row_empty_iff_uniform; [apply cube_case_range|].
  intros corner. rewrite !cube_case_bit. unfold corner_below.
  destruct corner as [[dx dy] dz].
  destruct Hfield as [Hall|Hnone].
  - transitivity true; [|symmetry]; apply Qlt_bool_iff, Hall.
  - transitivity false; [|symmetry];
      (destruct (Qlt_bool _ isovalue) eqn:E; [|reflexivity];
       apply Qlt_bool_iff in E; now apply Hnone in E).
Qed.

Lemma uniform_field_empty_mesh_witness :
  marching_cubes (fun x y z => x * x + y * y + z * z) (-1) (-2) 2 (1 # 3)
  = Ok [].
Proof.
  apply uniform_field_empty_mesh.
  - discriminate.
  - right. intros x y z. nra.
Defined.

(** ** The triangles of the mesh *)















(** ** The size of the mesh *)






(** ** From the field to the file *)

(** X6. The three stages compose: for a step size that is not zero,
    [marching_cubes] returns a mesh, [compute_normals] accepts it and returns
    as many normals, and [writePLY] accepts both and writes the header, one
    record per vertex and exactly one face record per triangle, the face
    count declared in the header. *)
Theorem mesh_pipeline (scalar_field : Q -> Q -> Q -> Q)
    (isovalue volume_min volume_max stepsize : Q)
    (normalize : vec3 -> vec3) (format_float : Q -> string)
    (comment : option string) :
  ~ stepsize == 0 ->
  exists vertices normals : list Q,
    marching_cubes scalar_field isovalue volume_min volume_max stepsize
    = Ok vertices
    /\ compute_normals normalize vertices = Ok normals
    /\ length normals = length vertices
    /\ writePLY format_float vertices normals comment
       = (Ok tt,
          (ply_header comment (Z.of_nat (length vertices / 3))
                      (Z.of_nat (length vertices / 9))
           ++ join (map (vertex_record format_float vertices normals)
                        (seq 0 (length vertices / 3)))
           ++ join (map face_record (seq 0 (length vertices / 9))))%string).
Proof.
  intros Hs.
  exists (lattice_vertices scalar_field isovalue volume_min volume_max
                           stepsize).
  destruct (length_lattice_vertices scalar_field isovalue volume_min
              volume_max stepsize) as [n Hn].
  set (vertices := lattice_vertices scalar_field isovalue volume_min
                                    volume_max stepsize) in *.
  destruct (compute_normals_blocks normalize vertices n ltac:(lia))
    as [normals [Hnormals [Hlen _]]].
  exists normals. split; [now apply marching_cubes_closed|].
  split; [exact Hnormals|]. split; [lia|].
  rewrite (writePLY_closed format_float vertices normals comment (3 * n))
    by lia.
  assert (H3 : (length vertices / 3 = 3 * n)%nat).
  { rewrite Hn. replace (n * 9)%nat with (3 * n * 3)%nat by lia.
    apply Nat.div_mul. lia. }
  assert (H9 : (length vertices / 9 = n)%nat).
  { rewrite Hn. apply Nat.div_mul. lia. }
  rewrite H3, H9.
  replace ((3 * n + 2) / 3)%nat with n
    by (apply (Nat.div_unique (3 * n + 2) 3 n 2); lia).
  replace (Z.of_nat (3 * n) / 3)%Z with (Z.of_nat n)
    by (apply Z.div_unique with (r := 0%Z); lia).
  reflexivity.
Qed.

Lemma mesh_pipeline_witness :
  exists vertices normals : list Q,
    marching_cubes hyperboloid 0 (-1) 1 (1 # 2) = Ok vertices
    /\ compute_normals (fun v => v) vertices = Ok normals
    /\ length normals = length vertices
    /\ writePLY format_fraction vertices normals None
       = (Ok tt,
          (ply_header None (Z.of_nat (length vertices / 3))
                      (Z.of_nat (length vertices / 9))
           ++ join (map (vertex_record format_fraction vertices normals)
                        (seq 0 (length vertices / 3)))
           ++ join (map face_record (seq 0 (length vertices / 9))))%string).
Proof.
  apply (mesh_pipeline hyperboloid 0 (-1) 1 (1 # 2)). discriminate.
Defined.

(** ** Subscripts out of range *)

Lemma getitem_cases {A : Type} (l : list A) (i : Z) :
  getitem l i = Raise IndexError \/ exists a, getitem l i = Ok a.
Proof.
  unfold getitem.
  destruct ((_ <? 0)%Z || _); [now left|].
  destruct (nth_error l _) as [a|]; [right; now exists a|now left].
Qed.

Lemma getitem_ok_bound {A : Type} (l : list A) (i : Z) (a : A) :
  (0 <= i)%Z -> getitem l i = Ok a -> (i < Z.of_nat (length l))%Z.
Proof.
  intros Hi H. destruct (Z_lt_dec i (Z.of_nat (length l))) as [Hlt|Hge];
    [exact Hlt|].
  rewrite getitem_out_of_range in H by lia. discriminate.
Qed.

Lemma for_each_raises {A S : Type} (e : exception) (l : list A)
    (body : A -> S -> result S) :
  (forall a s, body a s = Raise e \/ exists s', body a s = Ok s') ->
  Exists (fun a => forall s, body a s = Raise e) l ->
  forall s, for_each l body s = Raise e.
Proof.
  intros Hcases Hbad. induction l as [|a l IH]; intros s.
  - inversion Hbad.
  - simpl. destruct (Hcases a s) as [Hr|[s' Hs']].
    + now rewrite Hr.
    + rewrite Hs'. simpl. apply IH.
      inversion Hbad as [? ? Hhere|? ? Hthere]; subst; [|exact Hthere].
      rewrite Hhere in Hs'. discriminate.
Qed.

Lemma get_vertex_positions_step (x y z stepsize : Q) (e : Z) (vs : list Q) :
  (-12 <= e <= 11)%Z ->
  (midpoint <- getitem edge_midpoints e ;;
   let '(edge_x, edge_y, edge_z) := midpoint in
   Ok (((vs ++ [x + stepsize * edge_x]) ++ [y + stepsize * edge_y])
       ++ [z + stepsize * edge_z])%list)
  = Ok (vs ++ edge_position x y z stepsize (if (e <? 0)%Z then e + 12 else e))%list.
Proof.
  intros He. destruct (Z.ltb_spec e 0) as [Hneg|Hpos].
  - rewrite getitem_wraps by (rewrite edge_midpoints_length; lia).
    rewrite edge_midpoints_length. change (Z.of_nat 12) with 12%Z.
    rewrite (getitem_in_range edge_midpoints (e + 12) (0, 0, 0))
      by (rewrite edge_midpoints_length; lia).
    unfold edge_position. cbv beta iota delta [bind].
    destruct (nth (Z.to_nat (e + 12)) edge_midpoints (0, 0, 0))
      as [[ex ey] ez].
    now rewrite <- !app_assoc.
  - rewrite (getitem_in_range edge_midpoints e (0, 0, 0))
      by (rewrite edge_midpoints_length; lia).
    unfold edge_position. cbv beta iota delta [bind].
    destruct (nth (Z.to_nat e) edge_midpoints (0, 0, 0)) as [[ex ey] ez].
    now rewrite <- !app_assoc.
Qed.

(** X7. [_get_vertex_positions] accepts exactly the edge indices in
    [-12, 11]: on such a list it returns three numbers per index, an index
    below zero standing for the edge twelve above it; a list with an index
    outside that range raises [IndexError]. *)
Theorem get_vertex_positions_subscripts (configuration : list Z)
    (x y z stepsize : Q) :
  (Forall (fun e => (-12 <= e <= 11)%Z) configuration ->
   _get_vertex_positions configuration (x, y, z) stepsize
   = Ok (flat_map
           (fun e => edge_position x y z stepsize
                                   (if (e <? 0)%Z then e + 12 else e))
           configuration))
  /\ (Exists (fun e => (e < -12 \/ 11 < e)%Z) configuration ->
      _get_vertex_positions configuration (x, y, z) stepsize
      = Raise IndexError).
Proof.
  split.
  - intros Hall. unfold _get_vertex_positions.
    erewrite for_each_appends; [reflexivity|].
    intros e vs He. rewrite Forall_forall in Hall.
    apply get_vertex_positions_step. now apply Hall.
  - intros Hbad. unfold _get_vertex_positions.
    apply for_each_raises.
    + intros e vs. destruct (getitem_cases edge_midpoints e) as [Hr|[m Hm]].
      * left. now rewrite Hr.
      * right. rewrite Hm. cbv beta iota delta [bind].
        destruct m as [[ex ey] ez]. eexists. reflexivity.
    + eapply Exists_impl; [|exact Hbad]. intros e He vs. cbv beta in He.
      rewrite getitem_out_of_range; [reflexivity|].
      rewrite edge_midpoints_length. lia.
Qed.

Lemma get_vertex_positions_subscripts_witness :
  _get_vertex_positions [-1; 0]%Z (0, 0, 0) 1
  = Ok (flat_map
          (fun e => edge_position 0 0 0 1 (if (e <? 0)%Z then e + 12 else e))
          [-1; 0]%Z)
  /\ _get_vertex_positions [0; 12]%Z (0, 0, 0) 1 = Raise IndexError.
Proof.
  split.
  - apply (proj1 (get_vertex_positions_subscripts [-1; 0]%Z 0 0 0 1)).
    repeat constructor; lia.
  - apply (proj2 (get_vertex_positions_subscripts [0; 12]%Z 0 0 0 1)).
    apply Exists_cons_tl, Exists_cons_hd. lia.
Defined.

(** ** Vertex lists that are not whole triangles *)

Lemma triangle_normal_cases (normalize : vec3 -> vec3) (vertices : list Q)
    (index : Z) :
  triangle_normal normalize vertices index = Raise IndexError
  \/ exists normal, triangle_normal normalize vertices index = Ok normal.
Proof.
  unfold triangle_normal.
  repeat match goal with
         | |- context [getitem vertices ?i] =>
             destruct (getitem_cases vertices i) as [-> | [? ->]];
             [now left|cbv beta iota delta [bind]]
         end.
  right. eexists. reflexivity.
Qed.

Lemma triangle_normal_ok_bound (normalize : vec3 -> vec3)
    (vertices : list Q) (index : Z) (normal : vec3) :
  (0 <= index)%Z ->
  triangle_normal normalize vertices index = Ok normal ->
  (index + 8 < Z.of_nat (length vertices))%Z.
Proof.
  intros Hi. unfold triangle_normal.
  repeat match goal with
         | |- context [getitem vertices ?i] =>
             let E := fresh "E" in
             destruct (getitem vertices i) eqn:E;
             [cbv beta iota delta [bind]|discriminate]
         end.
  intros _.
  match goal with
  | E : getitem vertices (index + 8) = Ok _ |- _ =>
      apply getitem_ok_bound in E; [exact E|lia]
  end.
Qed.

(** X8. [compute_normals] raises [IndexError] exactly on the vertex lists
    whose length is not a multiple of 9; on every other list it returns the
    normals. *)
Theorem compute_normals_ragged (normalize : vec3 -> vec3)
    (vertices : list Q) :
  ((length vertices mod 9 <> 0)%nat
   <-> compute_normals normalize vertices = Raise IndexError)
  /\ ((length vertices mod 9 = 0)%nat
      <-> exists normals, compute_normals normalize vertices = Ok normals).
Proof.
  assert (Hgood : (length vertices mod 9 = 0)%nat ->
                  exists normals,
                    compute_normals normalize vertices = Ok normals).
  { intros Hmod. apply Nat.Lcm0.mod_divide in Hmod. destruct Hmod as [n Hn].
    eexists. apply (compute_normals_closed normalize vertices n). lia. }
  assert (Hbad : (length vertices mod 9 <> 0)%nat ->
                 compute_normals normalize vertices = Raise IndexError).
  { intros Hmod. unfold compute_normals.
    rewrite np_arange_int_from_zero by lia.
    cbv beta iota delta [bind]. rewrite for_each_map.
    apply for_each_raises.
    - intros k normals.
      destruct (triangle_normal_cases normalize vertices
                  (0 + Z.of_nat k * 9)) as [-> | [normal ->]];
        [now left|right].
      cbv beta iota delta [bind]. simpl. eexists. reflexivity.
    - apply Exists_exists. exists (length vertices / 9)%nat.
      pose proof (Nat.div_mod_eq (length vertices) 9) as Hdm.
      pose proof (Nat.mod_upper_bound (length vertices) 9 ltac:(lia)) as Hr.
      split.
      + apply in_seq.
        assert (Hlt : (length vertices / 9
                       < Z.to_nat ((Z.of_nat (length vertices) + 9 - 1) / 9))%nat).
        { apply Nat2Z.inj_lt. rewrite Z2Nat.id by (apply Z.div_pos; lia).
          assert (Z.of_nat (length vertices / 9) + 1
                  <= (Z.of_nat (length vertices) + 9 - 1) / 9)%Z
            by (apply Z.div_le_lower_bound; lia).
          lia. }
        lia.
      + intros normals.
        destruct (triangle_normal_cases normalize vertices
                    (0 + Z.of_nat (length vertices / 9) * 9))
          as [-> | [normal Hok]]; [reflexivity|].
        apply triangle_normal_ok_bound in Hok; lia. }
  split; split.
  - exact Hbad.
  - intros Hraise Hmod. destruct (Hgood Hmod) as [normals Hok].
    rewrite Hok in Hraise. discriminate.
  - exact Hgood.
  - intros [normals Hok].
    destruct (Nat.eq_dec (length vertices mod 9) 0) as [E|E]; [exact E|].
    rewrite (Hbad E) in Hok. discriminate.
Qed.

Lemma compute_normals_ragged_witness :
  compute_normals (fun v => v) ragged_vertices = Raise IndexError
  /\ exists normals, compute_normals (fun v => v) corner_triangle = Ok normals.
Proof.
  split.
  - apply (proj1 (proj1 (compute_normals_ragged (fun v => v)
                           ragged_vertices))).
    discriminate.
  - apply (proj1 (proj2 (compute_normals_ragged (fun v => v)
                           corner_triangle))).
    reflexivity.
Defined.

(** ** Files cut short *)

Lemma io_bind_lift_raise {A B : Type} (e : exception) (k : A -> file_io B)
    (text : string) :
  io_bind (io_lift (Raise e)) k text = (Raise e, text).
Proof. reflexivity. Qed.

Lemma io_for_each_outcome {A : Type} (record : A -> string)
    (good : A -> bool) (e : exception) (l : list A)
    (body : A -> file_io unit) (text : string) :
  (forall a t, In a l ->
     body a t = if good a then (Ok tt, t ++ record a)%string
                else (Raise e, t)) ->
  io_for_each l body text
  = if forallb good l
    then (Ok tt, text ++ join (map record l))%string
    else (Raise e, text ++ join (map record (take_while good l)))%string.
Proof.
  revert text. induction l as [|a l IH]; intros text Hbody.
  - simpl. unfold io_ret. now rewrite append_empty_r.
  - simpl. unfold io_bind. rewrite Hbody by now left.
    destruct (good a); simpl.
    + rewrite IH by (intros; apply Hbody; now right).
      destruct (forallb good l); now rewrite append_assoc.
    + now rewrite append_empty_r.
Qed.

Lemma take_while_seq (g start len : nat) :
  take_while (fun k => (k <? g)%nat) (seq start len)
  = seq start (Nat.min len (g - start)).
Proof.
  revert start. induction len as [|len IH]; intros start; simpl.
  - reflexivity.
  - destruct (Nat.ltb_spec start g) as [Hlt|Hge].
    + rewrite IH. replace (g - start)%nat with (S (g - S start)) by lia.
      reflexivity.
    + replace (g - start)%nat with 0%nat by lia. reflexivity.
Qed.

Lemma forallb_seq_below (g len : nat) :
  forallb (fun k => (k <? g)%nat) (seq 0 len) = (len <=? g)%nat.
Proof.
  assert (H : forall start,
            forallb (fun k => (k <? g)%nat) (seq start len)
            = ((len =? 0) || (start + len <=? g))%nat).
  { induction len as [|len IH]; intros start; simpl; [reflexivity|].
    rewrite IH.
    destruct (Nat.ltb_spec start g), (Nat.eqb_spec len 0),
             (Nat.leb_spec (S start + len) g),
             (Nat.leb_spec (start + S len) g); simpl; try reflexivity; lia. }
  rewrite H. simpl.
  destruct (Nat.eqb_spec len 0), (Nat.leb_spec len g); simpl;
    try reflexivity; lia.
Qed.

Lemma writePLY_vertex_line_outcome (format_float : Q -> string)
    (vertices normals : list Q) (k : nat) (text : string) :
  (v0 <~ io_lift (getitem vertices (0 + Z.of_nat k * 3)) ;;
   v1 <~ io_lift (getitem vertices (0 + Z.of_nat k * 3 + 1)) ;;
   v2 <~ io_lift (getitem vertices (0 + Z.of_nat k * 3 + 2)) ;;
   n0 <~ io_lift (getitem normals (0 + Z.of_nat k * 3)) ;;
   n1 <~ io_lift (getitem normals (0 + Z.of_nat k * 3 + 1)) ;;
   n2 <~ io_lift (getitem normals (0 + Z.of_nat k * 3 + 2)) ;;
   file_write (format_float v0 ++ " " ++ format_float v1 ++ " "
               ++ format_float v2 ++ " " ++ format_float n0 ++ " "
               ++ format_float n1 ++ " " ++ format_float n2 ++ nl)) text
  = if (k <? Nat.min (length vertices / 3) (length normals / 3))%nat
    then (Ok tt,
          (text ++ vertex_record format_float vertices normals k)%string)
    else (Raise IndexError, text).
Proof.
  pose proof (Nat.div_mod_eq (length vertices) 3) as Hv.
  pose proof (Nat.mod_upper_bound (length vertices) 3 ltac:(lia)) as Hvr.
  pose proof (Nat.div_mod_eq (length normals) 3) as Hn.
  pose proof (Nat.mod_upper_bound (length normals) 3 ltac:(lia)) as Hnr.
  destruct (Nat.ltb_spec k (Nat.min (length vertices / 3)
                                    (length normals / 3))) as [Hk|Hk].
  - (* every subscript is in range *)
    assert (H1 : (3 * k + 3 <= length vertices)%nat) by lia.
    assert (H2 : (3 * k + 3 <= length normals)%nat) by lia.
    rewrite !(fun i => getitem_in_range vertices i 0%Q) by lia.
    rewrite !(fun i => getitem_in_range normals i 0%Q) by lia.
    rewrite !io_bind_lift_ok. unfold file_write, vertex_record.
    replace (Z.to_nat (0 + Z.of_nat k * 3)) with (3 * k)%nat by lia.
    replace (Z.to_nat (0 + Z.of_nat k * 3 + 1)) with (3 * k + 1)%nat by lia.
    replace (Z.to_nat (0 + Z.of_nat k * 3 + 2)) with (3 * k + 2)%nat by lia.
    reflexivity.
  - (* one of the six is not *)
    repeat match goal with
           | |- context [getitem ?l ?i] =>
               let Hin := fresh "Hin" in
               destruct (Z_lt_dec i (Z.of_nat (length l))) as [Hin|Hin];
               [rewrite (getitem_in_range l i 0%Q) by lia;
                rewrite io_bind_lift_ok
               |rewrite (getitem_out_of_range l i) by lia;
                rewrite io_bind_lift_raise; reflexivity]
           end.
    lia.
Qed.

Lemma writePLY_cut_short (format_float : Q -> string)
    (vertices normals : list Q) (comment : option string) :
  ~ ((length vertices mod 3 = 0)%nat
     /\ (length vertices <= length normals)%nat) ->
  writePLY format_float vertices normals comment
  = (Raise IndexError,
     (ply_header comment (Z.of_nat (length vertices) / 3)
                 (Z.of_nat (length vertices) / 3 / 3)
      ++ join (map (vertex_record format_float vertices normals)
                   (seq 0 (Nat.min (length vertices / 3)
                                   (length normals / 3)))))%string).
Proof.
  intros Hbad. unfold writePLY, writePLY_body.
  rewrite !io_bind_write.
  rewrite np_arange_int_from_zero by lia.
  rewrite io_bind_lift_ok, io_for_each_map.
  set (g := Nat.min (length vertices / 3) (length normals / 3)).
  set (c := Z.to_nat ((Z.of_nat (length vertices) + 3 - 1) / 3)).
  assert (Hc : c = ((length vertices + 2) / 3)%nat).
  { unfold c. apply Nat2Z.inj. rewrite Z2Nat.id by (apply Z.div_pos; lia).
    rewrite Nat2Z.inj_div. f_equal. lia. }
  assert (Hgc : (g < c)%nat).
  { rewrite Hc. unfold g.
    pose proof (Nat.div_mod_eq (length vertices) 3) as Hv.
    pose proof (Nat.mod_upper_bound (length vertices) 3 ltac:(lia)) as Hvr.
    pose proof (Nat.div_mod_eq (length normals) 3) as Hn.
    pose proof (Nat.mod_upper_bound (length normals) 3 ltac:(lia)) as Hnr.
    pose proof (Nat.div_mod_eq (length vertices + 2) 3) as Hw.
    pose proof (Nat.mod_upper_bound (length vertices + 2) 3 ltac:(lia)) as Hwr.
    lia. }
  unfold io_bind at 1.
  rewrite (io_for_each_outcome
             (vertex_record format_float vertices normals)
             (fun k => (k <? g)%nat) IndexError)
    by (intros k t _; apply writePLY_vertex_line_outcome).
  rewrite forallb_seq_below, take_while_seq.
  destruct (Nat.leb_spec c g) as [Hle|_]; [lia|].
  replace (Nat.min c (g - 0)) with g by lia.
  unfold ply_header. f_equal. rewrite !append_assoc. reflexivity.
Qed.

(** X9. [writePLY] completes exactly when the number of vertex coordinates
    is a multiple of 3 and there are at least as many normal coordinates.
    Otherwise it raises [IndexError], and the file is left with the header
    and the records of the vertices that come before the first one whose
    position or normal is incomplete; no face record is written. *)
Theorem writePLY_outcome (format_float : Q -> string)
    (vertices normals : list Q) (comment : option string) :
  (((length vertices mod 3 = 0)%nat
    /\ (length vertices <= length normals)%nat)
   <-> fst (writePLY format_float vertices normals comment) = Ok tt)
  /\ (~ ((length vertices mod 3 = 0)%nat
         /\ (length vertices <= length normals)%nat) ->
      writePLY format_float vertices normals comment
      = (Raise IndexError,
         (ply_header comment (Z.of_nat (length vertices) / 3)
                     (Z.of_nat (length vertices) / 3 / 3)
          ++ join (map (vertex_record format_float vertices normals)
                       (seq 0 (Nat.min (length vertices / 3)
                                       (length normals / 3)))))%string)).
Proof.
  split; [|apply writePLY_cut_short]. split.
  - intros [Hmod Hlen].
    apply Nat.Lcm0.mod_divide in Hmod. destruct Hmod as [m Hm].
    rewrite (writePLY_closed format_float vertices normals comment m)
      by lia.
    reflexivity.
  - intros Hok.
    destruct (Nat.eq_dec (length vertices mod 3) 0) as [Hmod|Hmod];
      [destruct (le_dec (length vertices) (length normals)) as [Hlen|Hlen];
       [now split|]|];
      rewrite writePLY_cut_short in Hok by tauto; discriminate.
Qed.

Lemma writePLY_outcome_witness :
  fst (writePLY format_fraction corner_triangle corner_triangle None) = Ok tt
  /\ writePLY format_fraction ragged_vertices ragged_vertices None
     = (Raise IndexError,
        (ply_header None (Z.of_nat (length ragged_vertices) / 3)
                    (Z.of_nat (length ragged_vertices) / 3 / 3)
         ++ join (map (vertex_record format_fraction ragged_vertices
                                     ragged_vertices)
                      (seq 0 (Nat.min (length ragged_vertices / 3)
                                      (length ragged_vertices / 3)))))%string).
Proof.
  split.
  - apply (proj1 (proj1 (writePLY_outcome format_fraction corner_triangle
                           corner_triangle None))).
    split; [reflexivity|apply Nat.le_refl].
  - apply (proj2 (writePLY_outcome format_fraction ragged_vertices
                    ragged_vertices None)).
    intros [Hmod _]. discriminate Hmod.
Defined.

(** ** The camera *)

Lemma py_max_spec (a b : Q) :
  a <= py_max a b /\ b <= py_max a b
  /\ (py_max a b = a \/ py_max a b = b).
Proof.
  unfold py_max. destruct (Qlt_bool a b) eqn:E.
  - apply Qlt_bool_iff in E. repeat split; [lra|lra|now right].
  - assert (~ a < b) by (rewrite <- Qlt_bool_iff; congruence).
    repeat split; [lra|lra|now left].
Qed.

Lemma py_min_spec (a b : Q) :
  py_min a b <= a /\ py_min a b <= b
  /\ (py_min a b = a \/ py_min a b = b).
Proof.
  unfold py_min. destruct (Qlt_bool b a) eqn:E.
  - apply Qlt_bool_iff in E. repeat split; [lra|lra|now right].
  - assert (~ b < a) by (rewrite <- Qlt_bool_iff; congruence).
    repeat split; [lra|lra|now left].
Qed.

Lemma py_max_left (a b : Q) : b <= a -> py_max a b = a.
Proof.
  intros H. unfold py_max. destruct (Qlt_bool a b) eqn:E; [|reflexivity].
  apply Qlt_bool_iff in E. lra.
Qed.

Lemma py_min_left (a b : Q) : a <= b -> py_min a b = a.
Proof.
  intros H. unfold py_min. destruct (Qlt_bool b a) eqn:E; [|reflexivity].
  apply Qlt_bool_iff in E. lra.
Qed.

Lemma clamp_bounds (np_pi : Q) :
  (2 # 1000) <= np_pi ->
  py_max (1 # 1000) (np_pi - (1 # 1000)) == np_pi - (1 # 1000)
  /\ py_min (1 # 1000) (np_pi - (1 # 1000)) == 1 # 1000.
Proof.
  intros Hpi.
  pose proof (py_max_spec (1 # 1000) (np_pi - (1 # 1000))) as [H1 [H2 H3]].
  pose proof (py_min_spec (1 # 1000) (np_pi - (1 # 1000))) as [H4 [H5 H6]].
  split.
  - destruct H3 as [E|E]; rewrite E in *; lra.
  - destruct H6 as [E|E]; rewrite E in *; lra.
Qed.

Lemma zoomRadius_radius (self : Camera) (increment : Q) :
  (1 # 10000) <= radius (zoomRadius self increment).
Proof.
  unfold zoomRadius. simpl.
  destruct (Qle_bool (radius self + increment) (1 # 10000)) eqn:E; simpl.
  - lra.
  - assert (~ radius self + increment <= 1 # 10000)
      by (rewrite <- Qle_bool_iff; congruence).
    lra.
Qed.

(** X10. After [zoomRadius] the radius is at least 0.0001, so it is never
    zero or negative; it is the old radius plus the increment whenever that
    sum is above 0.0001; the two angles are untouched. *)
Theorem zoomRadius_keeps_radius_positive (self : Camera) (increment : Q) :
  (1 # 10000) <= radius (zoomRadius self increment)
  /\ 0 < radius (zoomRadius self increment)
  /\ ((1 # 10000) < radius self + increment ->
      radius (zoomRadius self increment) = radius self + increment)
  /\ (radius self + increment <= (1 # 10000) ->
      radius (zoomRadius self increment) = (1 # 10000))
  /\ theta (zoomRadius self increment) = theta self
  /\ phi (zoomRadius self increment) = phi self.
Proof.
  pose proof (zoomRadius_radius self increment) as Hr.
  split; [exact Hr|]. split; [lra|]. unfold zoomRadius. simpl.
  destruct (Qle_bool (radius self + increment) (1 # 10000)) eqn:E; simpl.
  - apply Qle_bool_iff in E. repeat split; try reflexivity. intros H. lra.
  - assert (~ radius self + increment <= 1 # 10000)
      by (rewrite <- Qle_bool_iff; congruence).
    repeat split; try reflexivity. intros H'. contradiction.
Qed.

Lemma zoomRadius_keeps_radius_positive_witness :
  radius (zoomRadius (mk_Camera 5 0 1) (- (3))) = 5 + - (3)
  /\ radius (zoomRadius (mk_Camera 5 0 1) (- (7))) = (1 # 10000).
Proof.
  split.
  - apply (proj1 (proj2 (proj2
      (zoomRadius_keeps_radius_positive (mk_Camera 5 0 1) (- (3)))))).
    reflexivity.
  - apply (proj1 (proj2 (proj2 (proj2
      (zoomRadius_keeps_radius_positive (mk_Camera 5 0 1) (- (7))))))).
    discriminate.
Defined.

Lemma rotatePhi_range (np_pi : Q) (self : Camera) (increment : Q) :
  (2 # 1000) <= np_pi ->
  (1 # 1000) <= phi (rotatePhi np_pi self increment)
  /\ phi (rotatePhi np_pi self increment) <= np_pi - (1 # 1000).
Proof.
  intros Hpi. unfold rotatePhi. simpl.
  pose proof (py_max_spec (1 # 1000) (np_pi - (1 # 1000))) as [H1 [H2 H3]].
  pose proof (py_min_spec (1 # 1000) (np_pi - (1 # 1000))) as [H4 [H5 H6]].
  set (hi := py_max (1 # 1000) (np_pi - (1 # 1000))) in *.
  set (lo := py_min (1 # 1000) (np_pi - (1 # 1000))) in *.
  pose proof (py_min_spec (phi self + increment) hi) as [H7 [H8 H9]].
  pose proof (py_max_spec (py_min (phi self + increment) hi) lo)
    as [H10 [H11 H12]].
  assert (Hlo : lo == 1 # 1000) by (destruct H6 as [->| ->]; lra).
  assert (Hhi : hi == np_pi - (1 # 1000)) by (destruct H3 as [->| ->]; lra).
  split; [lra|].
  destruct H12 as [->| ->]; lra.
Qed.

(** X11. With [numpy.pi] at least 0.002, [rotatePhi] leaves the polar angle
    in [[0.001, pi - 0.001]] whatever the increment; an angle that stays
    strictly inside that interval is just the old angle plus the increment;
    the radius and the azimuth are untouched. *)
Theorem rotatePhi_clamps (np_pi : Q) (self : Camera) (increment : Q) :
  (2 # 1000) <= np_pi ->
  (1 # 1000) <= phi (rotatePhi np_pi self increment)
  /\ phi (rotatePhi np_pi self increment) <= np_pi - (1 # 1000)
  /\ ((1 # 1000) < phi self + increment
      /\ phi self + increment < np_pi - (1 # 1000) ->
      phi (rotatePhi np_pi self increment) = phi self + increment)
  /\ radius (rotatePhi np_pi self increment) = radius self
  /\ theta (rotatePhi np_pi self increment) = theta self.
Proof.
  intros Hpi.
  destruct (rotatePhi_range np_pi self increment Hpi) as [Hlo Hhi].
  split; [exact Hlo|]. split; [exact Hhi|].
  split; [|split; reflexivity].
  intros [H1 H2]. unfold rotatePhi. simpl.
  destruct (clamp_bounds np_pi Hpi) as [Ehi Elo].
  rewrite (py_min_left (phi self + increment)) by lra.
  apply py_max_left. lra.
Qed.

Lemma rotatePhi_clamps_witness :
  (1 # 1000) <= phi (rotatePhi (355 # 113) (mk_Camera 5 0 1) 10)
  /\ phi (rotatePhi (355 # 113) (mk_Camera 5 0 1) 10)
     <= (355 # 113) - (1 # 1000).
Proof.
  destruct (rotatePhi_clamps (355 # 113) (mk_Camera 5 0 1) 10)
    as [H1 [H2 _]]; [discriminate|].
  split; assumption.
Defined.

(** X12. The render loop keeps the camera well placed: after any number of
    passes, each a zoom, a turn and a tilt, the radius is at least 0.0001
    and the polar angle lies in [[0.001, pi - 0.001]]. *)
Theorem camera_stays_well_placed (np_pi : Q) (self : Camera)
    (drags : list (Q * Q * Q)) :
  (2 # 1000) <= np_pi ->
  drags <> [] ->
  let camera := fold_left (move_camera np_pi) drags self in
  (1 # 10000) <= radius camera
  /\ (1 # 1000) <= phi camera /\ phi camera <= np_pi - (1 # 1000).
Proof.
  intros Hpi Hne.
  assert (Hstep : forall c d,
            (1 # 10000) <= radius (move_camera np_pi c d)
            /\ (1 # 1000) <= phi (move_camera np_pi c d)
            /\ phi (move_camera np_pi c d) <= np_pi - (1 # 1000)).
  { intros c [[dr dx] dy]. unfold move_camera. split.
    - change (radius (rotatePhi np_pi
                        (rotateTheta (zoomRadius c dr) ((5 # 1000) * dx))
                        (- (5 # 1000) * dy)))
        with (radius (zoomRadius c dr)).
      apply zoomRadius_radius.
    - now apply rotatePhi_range. }
  destruct drags as [|d drags]; [contradiction|]. simpl.
  clear Hne. generalize (Hstep self d).
  generalize (move_camera np_pi self d). clear self d.
  induction drags as [|d drags IH]; intros c Hc; simpl; [exact Hc|].
  apply IH, Hstep.
Qed.

Lemma camera_stays_well_placed_witness :
  (1 # 10000)
  <= radius (fold_left (move_camera (355 # 113))
                       [(- (9), 100, 100); (1, - (3), 7)]
                       (mk_Camera 5 0 1)).
Proof.
  apply (camera_stays_well_placed (355 # 113) (mk_Camera 5 0 1)
           [(- (9), 100, 100); (1, - (3), 7)]);
    discriminate.
Defined.

(** ** Flattening a matrix *)

Lemma matrix_row_closed (matrix : list (list Q)) (n : nat) (i : nat)
    (acc : list Q) :
  (i < length matrix)%nat ->
  (n <= length (nth i matrix []))%nat ->
  for_each (range n)
    (fun j matrix_array =>
       row <- getitem matrix (Z.of_nat i) ;;
       entry <- getitem row j ;;
       Ok (matrix_array ++ [entry])%list)
    acc
  = Ok (acc ++ flat_map (fun j => [nth j (nth i matrix []) 0]) (seq 0 n))%list.
Proof.
  intros Hi Hrow. unfold range. rewrite for_each_map.
  apply for_each_appends. intros j s Hj. apply in_seq in Hj.
  rewrite (getitem_in_range matrix (Z.of_nat i) []) by lia.
  cbv beta iota delta [bind]. rewrite Nat2Z.id.
  rewrite (getitem_in_range (nth i matrix []) (Z.of_nat j) 0) by lia.
  now rewrite Nat2Z.id.
Qed.

(** X13. [matrix_to_array] lists the entries [matrix[i][j]] with [i] running
    slowest: for a matrix that has at least [dimensions] lists of at least
    [dimensions] entries each, the result has [dimensions * dimensions]
    entries and [matrix[i][j]] stands at position [i * dimensions + j].
    A matrix with fewer lists than [dimensions] raises [IndexError]. *)
Theorem matrix_to_array_row_major (matrix : list (list Q)) (dimensions : Z) :
  ((0 <= dimensions <= Z.of_nat (length matrix))%Z ->
   (forall i : nat, (Z.of_nat i < dimensions)%Z ->
      (dimensions <= Z.of_nat (length (nth i matrix [])))%Z) ->
   exists matrix_array : list Q,
     matrix_to_array matrix dimensions = Ok matrix_array
     /\ length matrix_array = (Z.to_nat dimensions * Z.to_nat dimensions)%nat
     /\ forall i j : nat,
          (Z.of_nat i < dimensions)%Z -> (Z.of_nat j < dimensions)%Z ->
          nth_error matrix_array (Z.to_nat dimensions * i + j)
          = Some (nth j (nth i matrix []) 0))
  /\ ((Z.of_nat (length matrix) < dimensions)%Z ->
      matrix_to_array matrix dimensions = Raise IndexError).
Proof.
  split.
  - intros Hd Hrows. set (n := Z.to_nat dimensions).
    exists (flat_map
              (fun i => flat_map (fun j => [nth j (nth i matrix []) 0])
                                 (seq 0 n))
              (seq 0 n)).
    assert (Hinner : forall i,
              length (flat_map (fun j => [nth j (nth i matrix []) 0])
                               (seq 0 n)) = n).
    { intros i. rewrite (length_flat_map_const _ 1) by reflexivity.
      rewrite length_seq. lia. }
    split; [|split].
    + unfold matrix_to_array. fold n. unfold range at 1.
      rewrite for_each_map.
      erewrite for_each_appends; [reflexivity|].
      intros i acc Hi. apply in_seq in Hi. cbv beta.
      apply matrix_row_closed; [lia|].
      specialize (Hrows i ltac:(lia)). lia.
    + rewrite (length_flat_map_const _ n) by (intros; apply Hinner).
      now rewrite length_seq.
    + intros i j Hi Hj.
      rewrite (nth_error_flat_map_block _ n (seq 0 n) i j i Hinner)
        by (try (rewrite nth_error_nth' with (d := 0%nat)
                   by (rewrite length_seq; lia);
                 rewrite seq_nth by lia; reflexivity); lia).
      replace j with (1 * j + 0)%nat at 1 by lia.
      rewrite (nth_error_flat_map_block _ 1 (seq 0 n) j 0 j)
        by (try reflexivity;
            try (rewrite nth_error_nth' with (d := 0%nat)
                   by (rewrite length_seq; lia);
                 rewrite seq_nth by lia; reflexivity); lia).
      reflexivity.
  - intros Hd. unfold matrix_to_array. unfold range at 1.
    rewrite for_each_map. apply for_each_raises.
    + intros i acc.
      assert (Hcases : forall l acc',
                for_each l
                  (fun j matrix_array =>
                     row <- getitem matrix (Z.of_nat i) ;;
                     entry <- getitem row j ;;
                     Ok (matrix_array ++ [entry])%list) acc'
                = Raise IndexError
                \/ exists s', for_each l
                  (fun j matrix_array =>
                     row <- getitem matrix (Z.of_nat i) ;;
                     entry <- getitem row j ;;
                     Ok (matrix_array ++ [entry])%list) acc' = Ok s').
      { destruct (getitem_cases matrix (Z.of_nat i)) as [E|[row E]];
          rewrite E.
        - intros [|j l] acc'; simpl; [right; now exists acc'|now left].
        - induction l as [|j l IH]; intros acc'; simpl.
          + right. now exists acc'.
          + destruct (getitem_cases row j) as [E2|[entry E2]]; rewrite E2;
              [now left|].
            simpl. exact (IH _). }
      apply Hcases.
    + apply Exists_exists. exists (length matrix).
      split; [apply in_seq; lia|]. intros acc.
      unfold range. rewrite for_each_map.
      destruct (Z.to_nat dimensions) as [|n] eqn:En; [lia|].
      simpl. rewrite getitem_out_of_range by lia. reflexivity.
Qed.

Lemma matrix_to_array_row_major_witness :
  (exists matrix_array : list Q,
     matrix_to_array [[1; 2]; [3; 4]] 2 = Ok matrix_array
     /\ length matrix_array = (Z.to_nat 2 * Z.to_nat 2)%nat
     /\ forall i j : nat,
          (Z.of_nat i < 2)%Z -> (Z.of_nat j < 2)%Z ->
          nth_error matrix_array (Z.to_nat 2 * i + j)
          = Some (nth j (nth i [[1; 2]; [3; 4]] []) 0))
  /\ matrix_to_array [[1; 2]; [3; 4]] 3 = Raise IndexError.
Proof.
  split.
  - apply (proj1 (matrix_to_array_row_major [[1; 2]; [3; 4]] 2)).
    + simpl. lia.
    + intros [|[|i]] Hi; simpl; lia.
  - apply (proj2 (matrix_to_array_row_major [[1; 2]; [3; 4]] 3)).
    simpl. lia.
Defined.

(** ** Strings *)

Lemma string_forallb_app (test : ascii -> bool) (a b : string) :
  string_forallb test (a ++ b)
  = string_forallb test a && string_forallb test b.
Proof.
  induction a as [|c a IH]; simpl; [reflexivity|].
  now rewrite IH, andb_assoc.
Qed.

Lemma string_forallb_impl (test test' : ascii -> bool) (s : string) :
  (forall c, test c = true -> test' c = true) ->
  string_forallb test s = true -> string_forallb test' s = true.
Proof.
  intros Himpl. induction s as [|c s IH]; simpl; [reflexivity|].
  rewrite !andb_true_iff. intros [Hc Hs]. split; [now apply Himpl|now apply IH].
Qed.

Lemma not_space_not_line_end (c : ascii) :
  not_space c = true -> not_line_end c = true.
Proof.
  unfold not_space, not_line_end. intros H.
  destruct (Ascii.eqb_spec c newline) as [->|_]; [discriminate H|].
  destruct (Ascii.eqb_spec c carriage_return) as [->|_]; [discriminate H|].
  reflexivity.
Qed.

Lemma is_token_not_space (t : string) :
  is_token t = true -> string_forallb not_space t = true.
Proof. destruct t; [discriminate|intros H; exact H]. Qed.

Lemma is_token_one_line (t : string) :
  is_token t = true -> one_line t = true.
Proof.
  intros H. apply is_token_not_space in H.
  eapply string_forallb_impl; [|exact H]. apply not_space_not_line_end.
Qed.

Lemma split_line_app (a rest : string) :
  one_line a = true ->
  split_line (a ++ String newline rest)
  = ((a ++ String newline EmptyString)%string, rest).
Proof.
  unfold one_line. induction a as [|c a IH]; simpl.
  - intros _. reflexivity.
  - rewrite andb_true_iff. intros [Hc Ha]. rewrite (IH Ha).
    unfold not_line_end in Hc. apply andb_true_iff in Hc.
    destruct Hc as [Hc _]. apply negb_true_iff in Hc. now rewrite Hc.
Qed.

Lemma universal_newlines_id (s : string) :
  string_forallb (fun c => negb (Ascii.eqb c carriage_return)) s = true ->
  universal_newlines s = s.
Proof.
  induction s as [|c s IH]; simpl; [reflexivity|].
  rewrite andb_true_iff. intros [Hc Hs]. apply negb_true_iff in Hc.
  rewrite Hc. now rewrite IH.
Qed.

Lemma lstrip_token (t r : string) :
  is_token t = true -> lstrip is_space (t ++ r) = (t ++ r)%string.
Proof.
  destruct t as [|c t]; [discriminate|]. simpl.
  rewrite andb_true_iff. intros [Hc _]. unfold not_space in Hc.
  apply negb_true_iff in Hc. now rewrite Hc.
Qed.

Lemma rstrip_prefix (p x : string) (c : ascii) (r : string) :
  rstrip is_space x = String c r ->
  rstrip is_space (p ++ x) = (p ++ String c r)%string.
Proof.
  intros Hx. induction p as [|c' p IH]; simpl; [exact Hx|].
  rewrite IH. destruct p; reflexivity.
Qed.

Lemma rstrip_token_newline (t : string) :
  string_forallb not_space t = true ->
  rstrip is_space (t ++ nl) = t.
Proof.
  induction t as [|c t IH]; simpl; [reflexivity|].
  rewrite andb_true_iff. intros [Hc Ht]. rewrite (IH Ht).
  unfold not_space in Hc. apply negb_true_iff in Hc.
  destruct t; [now rewrite Hc|reflexivity].
Qed.

Lemma starts_unspaced_token (t r : string) :
  is_token t = true -> starts_unspaced (t ++ r) = true.
Proof.
  destruct t as [|c t]; [discriminate|]. simpl.
  rewrite andb_true_iff. now intros [Hc _].
Qed.

Lemma strip_line (p t : string) :
  starts_unspaced (p ++ t) = true ->
  is_token t = true ->
  strip (p ++ t ++ nl) = (p ++ t)%string.
Proof.
  intros Hp Ht. unfold strip, strip_chars.
  rewrite <- append_assoc.
  assert (Hl : lstrip is_space ((p ++ t) ++ nl)
               = ((p ++ t) ++ nl)%string).
  { destruct (p ++ t)%string as [|c s]; [discriminate|]. simpl in *.
    unfold not_space in Hp. apply negb_true_iff in Hp. now rewrite Hp. }
  rewrite Hl, append_assoc.
  destruct t as [|c t]; [discriminate|].
  apply rstrip_prefix. apply (rstrip_token_newline (String c t)).
  exact Ht.
Qed.

Lemma split_on_token (sep : ascii) (t : string) :
  string_forallb (fun c => negb (Ascii.eqb c sep)) t = true ->
  split_on sep t = [t].
Proof.
  induction t as [|c t IH]; simpl; [reflexivity|].
  rewrite andb_true_iff. intros [Hc Ht]. apply negb_true_iff in Hc.
  now rewrite Hc, (IH Ht).
Qed.

Lemma split_on_cons (sep : ascii) (t r : string) :
  string_forallb (fun c => negb (Ascii.eqb c sep)) t = true ->
  split_on sep (t ++ String sep r) = t :: split_on sep r.
Proof.
  induction t as [|c t IH]; simpl.
  - intros _. now rewrite Ascii.eqb_refl.
  - rewrite andb_true_iff. intros [Hc Ht]. apply negb_true_iff in Hc.
    now rewrite Hc, (IH Ht).
Qed.

Lemma not_space_not_blank (t : string) :
  string_forallb not_space t = true ->
  string_forallb (fun c => negb (Ascii.eqb c " ")) t = true.
Proof.
  apply string_forallb_impl. intros c H.
  destruct (Ascii.eqb_spec c " ") as [->|_]; [discriminate H|reflexivity].
Qed.

Lemma split_ws_token (t : string) :
  is_token t = true -> split_ws t = [t].
Proof.
  induction t as [|c t IH]; [discriminate|]. simpl.
  rewrite andb_true_iff. intros [Hc Ht].
  unfold not_space in Hc. apply negb_true_iff in Hc. rewrite Hc.
  destruct t as [|c' t]; [reflexivity|].
  assert (Htok : is_token (String c' t) = true) by exact Ht.
  simpl in Ht. apply andb_true_iff in Ht. destruct Ht as [Hc' _].
  unfold not_space in Hc'. apply negb_true_iff in Hc'. rewrite Hc'.
  now rewrite (IH Htok).
Qed.

Lemma split_ws_cons (t r : string) :
  is_token t = true ->
  split_ws (t ++ String " " r) = t :: split_ws r.
Proof.
  induction t as [|c t IH]; [discriminate|]. simpl.
  rewrite andb_true_iff. intros [Hc Ht].
  unfold not_space in Hc. apply negb_true_iff in Hc. rewrite Hc.
  destruct t as [|c' t]; [reflexivity|].
  assert (Htok : is_token (String c' t) = true) by exact Ht.
  simpl in Ht. apply andb_true_iff in Ht. destruct Ht as [Hc' _].
  unfold not_space in Hc'. apply negb_true_iff in Hc'.
  specialize (IH Htok). cbn [append] in *.
  rewrite Hc'. now rewrite IH.
Qed.

(** ** Numbers as text *)

Lemma digits_not_space (d : Decimal.uint) :
  string_forallb not_space (DecimalString.NilEmpty.string_of_uint d) = true.
Proof. induction d; simpl; auto. Qed.

Lemma format_int_token (z : Z) : is_token (format_int z) = true.
Proof.
  unfold format_int, DecimalString.NilZero.string_of_int.
  destruct (Z.to_int z) as [d|d].
  - destruct d; try reflexivity; simpl; apply digits_not_space.
  - simpl. destruct d; try reflexivity; simpl; apply digits_not_space.
Qed.

(** ** Reading line by line *)

Lemma reader_bind_readline {B : Type} (k : string -> reader B)
    (a rest : string) :
  one_line a = true ->
  reader_bind readline k (a ++ nl ++ rest)
  = k (a ++ nl)%string rest.
Proof.
  intros Ha. unfold reader_bind, readline.
  change (nl ++ rest)%string with (String newline rest).
  now rewrite split_line_app.
Qed.

Lemma reader_bind_next_line {B : Type} (k : string -> reader B)
    (a rest : string) :
  one_line a = true ->
  reader_bind next_line k (a ++ nl ++ rest)
  = k (a ++ nl)%string rest.
Proof.
  intros Ha. unfold reader_bind, next_line.
  change (nl ++ rest)%string with (String newline rest).
  rewrite split_line_app by exact Ha.
  destruct a; reflexivity.
Qed.

Lemma reader_bind_lift {A B : Type} (a : A) (k : A -> reader B)
    (text : string) :
  reader_bind (reader_lift (Return a)) k text = k a text.
Proof. reflexivity. Qed.

Lemma one_line_app (a b : string) :
  one_line a = true -> one_line b = true -> one_line (a ++ b) = true.
Proof.
  unfold one_line. intros Ha Hb. now rewrite string_forallb_app, Ha, Hb.
Qed.

Lemma one_line_format_int (z : Z) : one_line (format_int z) = true.
Proof. apply is_token_one_line, format_int_token. Qed.

Lemma getitem_0 {A : Type} (a : A) (l : list A) : getitem (a :: l) 0 = Ok a.
Proof. rewrite (getitem_in_range _ 0 a) by (simpl; lia). reflexivity. Qed.

Lemma getitem_1 {A : Type} (a b : A) (l : list A) :
  getitem (a :: b :: l) 1 = Ok b.
Proof. rewrite (getitem_in_range _ 1 a) by (simpl; lia). reflexivity. Qed.

Lemma getitem_2 {A : Type} (a b c : A) (l : list A) :
  getitem (a :: b :: c :: l) 2 = Ok c.
Proof. rewrite (getitem_in_range _ 2 a) by (simpl; lia). reflexivity. Qed.

Lemma getitem_3 {A : Type} (a b c d : A) (l : list A) :
  getitem (a :: b :: c :: d :: l) 3 = Ok d.
Proof. rewrite (getitem_in_range _ 3 a) by (simpl; lia). reflexivity. Qed.

Lemma getitem_4 {A : Type} (a b c d e : A) (l : list A) :
  getitem (a :: b :: c :: d :: e :: l) 4 = Ok e.
Proof. rewrite (getitem_in_range _ 4 a) by (simpl; lia). reflexivity. Qed.

Lemma getitem_5 {A : Type} (a b c d e f : A) (l : list A) :
  getitem (a :: b :: c :: d :: e :: f :: l) 5 = Ok f.
Proof. rewrite (getitem_in_range _ 5 a) by (simpl; lia). reflexivity. Qed.

Lemma one_line_token_app (t r : string) :
  is_token t = true -> one_line r = true -> one_line (t ++ r) = true.
Proof. intros Ht Hr. apply one_line_app; [now apply is_token_one_line|exact Hr]. Qed.

Lemma token_no_blank (t : string) :
  is_token t = true ->
  string_forallb (fun c => negb (Ascii.eqb c " ")) t = true.
Proof. intros H. now apply not_space_not_blank, is_token_not_space. Qed.

(** ** Dictionaries *)

Lemma dict_get_here {V : Type} (k : string) (v : V) (d : list (string * V)) :
  dict_get ((k, v) :: d) k = Return v.
Proof. simpl. now rewrite String.eqb_refl. Qed.

Lemma dict_get_next {V : Type} (k k' : string) (v : V)
    (d : list (string * V)) :
  String.eqb k k' = false -> dict_get ((k, v) :: d) k' = dict_get d k'.
Proof. intros H. simpl. now rewrite H. Qed.

Lemma dict_replace_here {V : Type} (k : string) (v v' : V)
    (d : list (string * V)) :
  dict_replace ((k, v) :: d) k v' = (k, v') :: d.
Proof. simpl. now rewrite String.eqb_refl. Qed.

Lemma dict_replace_next {V : Type} (k k' : string) (v v' : V)
    (d : list (string * V)) :
  String.eqb k k' = false ->
  dict_replace ((k, v) :: d) k' v' = (k, v) :: dict_replace d k' v'.
Proof. intros H. simpl. now rewrite H. Qed.

(** ** Lists read back in threes *)

Lemma firstn_snoc {A : Type} (l : list A) (n : nat) (d : A) :
  (n < length l)%nat -> firstn (S n) l = (firstn n l ++ [nth n l d])%list.
Proof.
  revert n. induction l as [|a l IH]; intros n Hn; simpl in Hn; [lia|].
  destruct n as [|n]; [reflexivity|].
  cbn [firstn nth app]. rewrite <- IH by lia. reflexivity.
Qed.

Lemma thirds_firstn (l : list Q) (n : nat) :
  (3 * n <= length l)%nat ->
  flat_map (fun i => [nth (3 * i + 0) l 0; nth (3 * i + 1) l 0;
                      nth (3 * i + 2) l 0]) (seq 0 n)
  = firstn (3 * n) l.
Proof.
  induction n as [|n IH]; intros Hn; [reflexivity|].
  rewrite seq_S, flat_map_app, IH by lia. cbn [flat_map].
  rewrite app_nil_r.
  replace (3 * S n)%nat with (S (S (S (3 * n)))) by lia.
  rewrite (firstn_snoc l (S (S (3 * n))) 0) by lia.
  rewrite (firstn_snoc l (S (3 * n)) 0) by lia.
  rewrite (firstn_snoc l (3 * n) 0) by lia.
  rewrite <- !app_assoc. cbn [app].
  replace (3 * (0 + n) + 0)%nat with (3 * n)%nat by lia.
  replace (3 * (0 + n) + 1)%nat with (S (3 * n)) by lia.
  replace (3 * (0 + n) + 2)%nat with (S (S (3 * n))) by lia.
  reflexivity.
Qed.

Lemma loop_each_app {A S : Type} (l1 l2 : list A)
    (body : A -> S -> outcome S) (s : S) :
  loop_each (l1 ++ l2) body s
  = (s' <== loop_each l1 body s ;; loop_each l2 body s').
Proof.
  revert s. induction l1 as [|a l1 IH]; intros s; simpl; [reflexivity|].
  destruct (body a s); simpl; [apply IH|reflexivity].
Qed.

(** ** Reading back a written file *)

Section RoundTrip.

Variable py_int : string -> outcome Z.
Variable py_float : string -> outcome Q.
Variable np_float32 : Q -> Q.
Variable np_uint32 : string -> outcome Z.
Variable np_empty : string -> nat -> list Q.

Hypothesis py_int_format :
  forall z : Z, (0 <= z)%Z -> py_int (format_int z) = Return z.

Ltac compute_words :=
  match goal with
  | |- context [split_ws (strip ?s)] =>
      let v := eval vm_compute in (split_ws (strip s)) in
      change (split_ws (strip s)) with v
  end.

Ltac compute_getitem :=
  rewrite ?getitem_0, ?getitem_1, ?getitem_2, ?getitem_3, ?getitem_4,
    ?getitem_5;
  cbn [of_result].

Ltac compute_eqb :=
  match goal with
  | |- context [String.eqb ?a ?b] =>
      let v := eval vm_compute in (String.eqb a b) in
      change (String.eqb a b) with v
  end;
  cbv iota.

Ltac property_line :=
  rewrite reader_bind_readline by reflexivity;
  cbv zeta; compute_words; compute_getitem;
  rewrite reader_bind_lift; compute_eqb;
  rewrite reader_bind_lift; cbn [read_properties].

Lemma read_properties_written (line : list string) (nf : Z) (rest : string) :
  read_properties 11 [] line
    ("property float x" ++ nl ++ "property float y" ++ nl
     ++ "property float z" ++ nl ++ "property float nx" ++ nl
     ++ "property float ny" ++ nl ++ "property float nz" ++ nl
     ++ "element face " ++ format_int nf ++ nl ++ rest)
  = Return ((["x"; "y"; "z"; "nx"; "ny"; "nz"]%string,
             ["element"; "face"; format_int nf]%string),
            rest).
Proof.
  cbn [read_properties].
  do 6 property_line.
  rewrite <- (append_assoc "element face " (format_int nf)).
  rewrite reader_bind_readline
    by (apply one_line_app; [reflexivity|apply one_line_format_int]).
  cbv zeta. rewrite (append_assoc "element face " (format_int nf) nl).
  rewrite strip_line by (try reflexivity; apply format_int_token).
  change ("element face " ++ format_int nf)%string
    with ("element" ++ String " " ("face" ++ String " " (format_int nf)))%string.
  rewrite !split_ws_cons by reflexivity.
  rewrite split_ws_token by apply format_int_token.
  compute_getitem. rewrite reader_bind_lift. compute_eqb.
  reflexivity.
Qed.

Lemma read_header_written (comment : option string) (m : nat) (nf : Z)
    (body : string) :
  one_line (format_comment comment) = true ->
  (0 <= nf)%Z ->
  read_header py_int np_empty
              (ply_header comment (Z.of_nat m) nf ++ body)
  = Return ((Z.of_nat m,
             map (fun key => (key, np_empty key m)) vertex_data_keys,
             ["x"; "y"; "z"; "nx"; "ny"; "nz"]%string,
             nf),
            body).
Proof.
  intros Hcomment Hnf. unfold read_header, ply_header.
  rewrite !append_assoc.
  rewrite reader_bind_readline by reflexivity.
  rewrite reader_bind_readline by reflexivity.
  rewrite <- (append_assoc "comment " (format_comment comment)).
  rewrite reader_bind_readline
    by (apply one_line_app; [reflexivity|exact Hcomment]).
  rewrite <- (append_assoc "element vertex " (format_int (Z.of_nat m))).
  rewrite reader_bind_readline
    by (apply one_line_app; [reflexivity|apply one_line_format_int]).
  cbv zeta. rewrite append_assoc.
  rewrite strip_line by (try reflexivity; apply format_int_token).
  change ("element vertex " ++ format_int (Z.of_nat m))%string
    with ("element" ++ String " " ("vertex" ++ String " "
                                     (format_int (Z.of_nat m))))%string.
  rewrite !split_on_cons by reflexivity.
  rewrite split_on_token
    by apply not_space_not_blank, is_token_not_space, format_int_token.
  compute_getitem. rewrite reader_bind_lift.
  rewrite py_int_format by lia. rewrite reader_bind_lift.
  unfold make_vertex_data.
  rewrite (proj2 (Z.ltb_ge (Z.of_nat m) 0)) by lia.
  rewrite Nat2Z.id, reader_bind_lift, length_map.
  change (length vertex_data_keys) with 11%nat.
  unfold reader_bind at 1. rewrite read_properties_written.
  compute_getitem. rewrite reader_bind_lift.
  rewrite py_int_format by exact Hnf. rewrite reader_bind_lift.
  rewrite reader_bind_next_line by reflexivity.
  rewrite reader_bind_next_line by reflexivity.
  reflexivity.
Qed.

Variable format_float : Q -> string.
Variable vertices normals : list Q.
Variable m : nat.

Hypothesis vertices_length : length vertices = (3 * m)%nat.
Hypothesis normals_length : (3 * m <= length normals)%nat.
Hypothesis np_empty_length : forall key n, length (np_empty key n) = n.
Hypothesis numbers_format :
  forall j : nat, (j < 3 * m)%nat ->
    (is_token (format_float (nth j vertices 0)) = true
     /\ py_float (format_float (nth j vertices 0)) = Return (nth j vertices 0))
    /\ (is_token (format_float (nth j normals 0)) = true
        /\ py_float (format_float (nth j normals 0))
           = Return (nth j normals 0)).

Lemma array_set_filled (source unset : list Q) (offset k : nat) :
  (k < length unset)%nat ->
  array_set (filled_array source offset k unset) k
            (nth (3 * k + offset) source 0)
  = Ok (filled_array source offset (S k) unset).
Proof.
  intros Hk. unfold filled_array.
  assert (Hset : forall (prefix rest : list Q) (v x : Q),
            array_set (prefix ++ x :: rest) (length prefix) v
            = Ok (prefix ++ v :: rest)%list).
  { induction prefix as [|p prefix IH]; intros rest v x; simpl;
      [reflexivity|]. now rewrite IH. }
  destruct (skipn k unset) as [|x rest] eqn:E.
  { apply (f_equal (@length Q)) in E. rewrite length_skipn in E.
    simpl in E. lia. }
  assert (Hrest : skipn (S k) unset = rest).
  { change (S k) with (1 + k)%nat. rewrite <- skipn_skipn, E. reflexivity. }
  rewrite Hrest, seq_S, map_app, <- app_assoc.
  pose proof (Hset (map (fun i => nth (3 * i + offset) source 0) (seq 0 k))
                   rest (nth (3 * k + offset) source 0) x) as H.
  rewrite length_map, length_seq in H. rewrite H. reflexivity.
Qed.

Ltac dict_step :=
  repeat first [ rewrite dict_get_here
               | rewrite dict_get_next by reflexivity
               | rewrite dict_replace_here
               | rewrite dict_replace_next by reflexivity ].

Lemma read_vertex_written (k : nat) (rest : string) :
  (k < m)%nat ->
  read_vertex py_float ["x"; "y"; "z"; "nx"; "ny"; "nz"]%string k
              (vertex_data_after np_empty vertices normals m k)
              (vertex_record format_float vertices normals k ++ rest)
  = Return (vertex_data_after np_empty vertices normals m (S k), rest).
Proof.
  intros Hk. unfold read_vertex, vertex_record.
  destruct (numbers_format (3 * k) ltac:(lia)) as [[T0 F0] [T3 F3]].
  destruct (numbers_format (3 * k + 1) ltac:(lia)) as [[T1 F1] [T4 F4]].
  destruct (numbers_format (3 * k + 2) ltac:(lia)) as [[T2 F2] [T5 F5]].
  set (t0 := format_float (nth (3 * k) vertices 0)) in *.
  set (t1 := format_float (nth (3 * k + 1) vertices 0)) in *.
  set (t2 := format_float (nth (3 * k + 2) vertices 0)) in *.
  set (t3 := format_float (nth (3 * k) normals 0)) in *.
  set (t4 := format_float (nth (3 * k + 1) normals 0)) in *.
  set (t5 := format_float (nth (3 * k + 2) normals 0)) in *.
  replace ((t0 ++ " " ++ t1 ++ " " ++ t2 ++ " " ++ t3 ++ " " ++ t4 ++ " "
            ++ t5 ++ nl) ++ rest)%string
    with ((t0 ++ " " ++ t1 ++ " " ++ t2 ++ " " ++ t3 ++ " " ++ t4 ++ " "
           ++ t5) ++ nl ++ rest)%string
    by (now rewrite !append_assoc).
  rewrite reader_bind_readline
    by (repeat (apply one_line_token_app; [assumption|];
                apply one_line_app; [reflexivity|]);
        now apply is_token_one_line).
  cbv zeta.
  replace ((t0 ++ " " ++ t1 ++ " " ++ t2 ++ " " ++ t3 ++ " " ++ t4 ++ " "
            ++ t5) ++ nl)%string
    with ((t0 ++ " " ++ t1 ++ " " ++ t2 ++ " " ++ t3 ++ " " ++ t4 ++ " ")
          ++ t5 ++ nl)%string
    by (now rewrite !append_assoc).
  rewrite strip_line
    by (try assumption; rewrite !append_assoc;
        now apply starts_unspaced_token).
  replace ((t0 ++ " " ++ t1 ++ " " ++ t2 ++ " " ++ t3 ++ " " ++ t4 ++ " ")
           ++ t5)%string
    with (t0 ++ String " " (t1 ++ String " " (t2 ++ String " "
           (t3 ++ String " " (t4 ++ String " " t5)))))%string
    by (now rewrite !append_assoc).
  rewrite !split_on_cons by now apply token_no_blank.
  rewrite split_on_token by now apply token_no_blank.
  replace (3 * k)%nat with (3 * k + 0)%nat in F0, F3 by lia.
  replace (3 * k)%nat with (3 * k + 0)%nat by lia.
  cbn [length seq loop_each]. unfold vertex_data_after.
  cbn [attribute_at nth_error outcome_bind Z.of_nat Pos.of_succ_nat Pos.succ].
  compute_getitem. cbn [outcome_bind].
  rewrite F0, F1, F2, F3, F4, F5. cbn [outcome_bind].
  repeat (progress (dict_step; cbn [of_result outcome_bind];
                    rewrite ?array_set_filled
                      by (rewrite np_empty_length; exact Hk))).
  reflexivity.
Qed.

Lemma read_vertices_written (n k : nat) (rest : string) :
  (k + n <= m)%nat ->
  reader_each (seq k n)
    (read_vertex py_float ["x"; "y"; "z"; "nx"; "ny"; "nz"]%string)
    (vertex_data_after np_empty vertices normals m k)
    (join (map (vertex_record format_float vertices normals) (seq k n))
     ++ rest)
  = Return (vertex_data_after np_empty vertices normals m (k + n), rest).
Proof.
  revert k. induction n as [|n IH]; intros k Hk.
  - simpl. now rewrite Nat.add_0_r.
  - cbn [seq map join fold_right reader_each].
    rewrite append_assoc. unfold reader_bind at 1.
    rewrite read_vertex_written by lia.
    fold (@join). change (fold_right append EmptyString) with join.
    rewrite IH by lia. now rewrite Nat.add_succ_r.
Qed.

Lemma filled_array_getitem (source unset : list Q) (offset k i : nat) :
  (i < k)%nat ->
  getitem (filled_array source offset k unset) (Z.of_nat i)
  = Ok (nth (3 * i + offset) source 0).
Proof.
  intros Hi. unfold filled_array.
  rewrite (getitem_in_range _ _ 0)
    by (rewrite length_app, length_map, length_seq; lia).
  rewrite Nat2Z.id. f_equal. apply nth_error_nth.
  rewrite nth_error_app1 by (rewrite length_map, length_seq; lia).
  rewrite nth_error_map.
  rewrite (nth_error_nth' _ 0%nat) by (rewrite length_seq; lia).
  rewrite seq_nth by lia. reflexivity.
Qed.

Lemma gather_written :
  gather (vertex_data_after np_empty vertices normals m m) m
  = Return
      (flat_map (fun i => [nth (3 * i + 0) vertices 0;
                           nth (3 * i + 1) vertices 0;
                           nth (3 * i + 2) vertices 0]) (seq 0 m),
       flat_map (fun i => [nth (3 * i + 0) normals 0;
                           nth (3 * i + 1) normals 0;
                           nth (3 * i + 2) normals 0]) (seq 0 m)).
Proof.
  unfold gather.
  set (body := fun (i : nat) (lists : list Q * list Q) => _).
  assert (Hstep : forall i vs ns, (i < m)%nat ->
    body i (vs, ns)
    = Return ((vs ++ [nth (3 * i + 0) vertices 0;
                      nth (3 * i + 1) vertices 0;
                      nth (3 * i + 2) vertices 0])%list,
              (ns ++ [nth (3 * i + 0) normals 0;
                      nth (3 * i + 1) normals 0;
                      nth (3 * i + 2) normals 0])%list)).
  { intros i vs ns Hi. unfold body, vertex_entry, vertex_data_after.
    dict_step. cbn [outcome_bind].
    rewrite !filled_array_getitem by exact Hi.
    reflexivity. }
  assert (Hloop : forall (l : list nat) (vs ns : list Q),
    (forall i, In i l -> (i < m)%nat) ->
    loop_each l body (vs, ns)
    = Return
        ((vs ++ flat_map (fun i => [nth (3 * i + 0) vertices 0;
                                    nth (3 * i + 1) vertices 0;
                                    nth (3 * i + 2) vertices 0]) l)%list,
         (ns ++ flat_map (fun i => [nth (3 * i + 0) normals 0;
                                    nth (3 * i + 1) normals 0;
                                    nth (3 * i + 2) normals 0]) l)%list)).
  { clearbody body. induction l as [|i l IH]; intros vs ns Hl.
    - simpl. now rewrite !app_nil_r.
    - cbn [loop_each]. rewrite Hstep by (apply Hl; now left).
      cbn [outcome_bind]. rewrite IH by (intros; apply Hl; now right).
      cbn [flat_map]. now rewrite !app_assoc. }
  rewrite Hloop by (intros i Hi; apply in_seq in Hi; lia).
  reflexivity.
Qed.

Hypothesis np_uint32_format :
  forall z : Z, (0 <= z < 3 * Z.of_nat m)%Z ->
    np_uint32 (format_int z) = Return z.

Lemma face_strings_length (n : nat) : length (face_strings n) = (3 * n)%nat.
Proof.
  unfold face_strings. rewrite (length_flat_map_const _ 3) by reflexivity.
  now rewrite length_seq.
Qed.

Lemma face_strings_S (n : nat) :
  face_strings (S n)
  = (face_strings n ++ [format_int (3 * Z.of_nat n)]
     ++ [format_int (3 * Z.of_nat n + 1)]
     ++ [format_int (3 * Z.of_nat n + 2)])%list.
Proof.
  unfold face_strings. rewrite seq_S, flat_map_app. simpl. reflexivity.
Qed.

Lemma read_faces_written (nf : Z) (d k fuel n : nat) (rest : string) :
  (0 <= nf)%Z ->
  (k + d = (Z.to_nat nf + 2) / 3)%nat ->
  (d <= fuel)%nat -> (d <= n)%nat ->
  read_faces fuel nf (face_strings k)
             (join (map face_record (seq k n)) ++ rest)
  = Return (face_strings ((Z.to_nat nf + 2) / 3),
            (join (map face_record (seq (k + d) (n - d))) ++ rest)%string).
Proof.
  intros Hnf. revert k fuel n.
  pose proof (Nat.div_mod_eq (Z.to_nat nf + 2) 3) as Hdm.
  pose proof (Nat.mod_upper_bound (Z.to_nat nf + 2) 3 ltac:(lia)) as Hr.
  induction d as [|d IH]; intros k fuel n Hk Hfuel Hn.
  - assert (Htest : (Z.of_nat (length (face_strings k)) <? nf)%Z = false).
    { rewrite face_strings_length. apply Z.ltb_ge. lia. }
    rewrite Nat.add_0_r in *. rewrite Nat.sub_0_r, <- Hk.
    destruct fuel; cbn [read_faces]; rewrite Htest; reflexivity.
  - assert (Htest : (Z.of_nat (length (face_strings k)) <? nf)%Z = true).
    { rewrite face_strings_length. apply Z.ltb_lt. lia. }
    destruct fuel as [|fuel]; [lia|]. destruct n as [|n]; [lia|].
    cbn [read_faces]. rewrite Htest.
    cbn [seq map join fold_right]. change (fold_right append EmptyString) with join.
    unfold face_record at 1.
    set (fa := format_int (3 * Z.of_nat k)).
    set (fb := format_int (3 * Z.of_nat k + 1)).
    set (fc := format_int (3 * Z.of_nat k + 2)).
    assert (Ta : is_token fa = true) by apply format_int_token.
    assert (Tb : is_token fb = true) by apply format_int_token.
    assert (Tc : is_token fc = true) by apply format_int_token.
    set (tail := join (map face_record (seq (S k) n))).
    replace ((("3 " ++ fa ++ " " ++ fb ++ " " ++ fc ++ nl) ++ tail) ++ rest)%string
      with (("3 " ++ fa ++ " " ++ fb ++ " " ++ fc) ++ nl ++ tail ++ rest)%string
      by (now rewrite !append_assoc).
    rewrite reader_bind_readline
      by (apply one_line_app; [reflexivity|];
          repeat (apply one_line_token_app; [assumption|];
                  apply one_line_app; [reflexivity|]);
          now apply is_token_one_line).
    replace (("3 " ++ fa ++ " " ++ fb ++ " " ++ fc) ++ nl)%string
      with (("3 " ++ fa ++ " " ++ fb ++ " ") ++ fc ++ nl)%string
      by (now rewrite !append_assoc).
    rewrite strip_line by (try assumption; reflexivity).
    replace (("3 " ++ fa ++ " " ++ fb ++ " ") ++ fc)%string
      with ("3" ++ String " " (fa ++ String " " (fb ++ String " " fc)))%string
      by (now rewrite !append_assoc).
    rewrite !split_on_cons by (try reflexivity; now apply token_no_blank).
    rewrite split_on_token by now apply token_no_blank.
    compute_getitem. rewrite !reader_bind_lift.
    rewrite <- face_strings_S. subst tail.
    rewrite (IH (S k) fuel n) by lia.
    replace (S k + d)%nat with (k + S d)%nat by lia.
    reflexivity.
Qed.

Lemma to_uint32_array_written (n : nat) :
  (n <= m)%nat ->
  to_uint32_array np_uint32 (face_strings n) = Return (face_indices n).
Proof.
  unfold to_uint32_array.
  assert (Hgen : forall (l : list Z) (acc : list Z),
            (forall z, In z l -> (0 <= z < 3 * Z.of_nat m)%Z) ->
            loop_each (map format_int l)
              (fun face array =>
                 index <== np_uint32 face ;; Return (array ++ [index])%list)
              acc
            = Return (acc ++ l)%list).
  { induction l as [|z l IH]; intros acc Hl; simpl.
    - now rewrite app_nil_r.
    - rewrite np_uint32_format by (apply Hl; now left). simpl.
      rewrite IH by (intros; apply Hl; now right).
      now rewrite <- app_assoc. }
  intros Hn.
  assert (Hmap : face_strings n = map format_int (face_indices n)).
  { unfold face_strings, face_indices.
    induction (seq 0 n) as [|k l IH]; [reflexivity|].
    cbn [flat_map map app]. now rewrite IH. }
  rewrite Hmap, Hgen; [reflexivity|].
  intros z Hz. unfold face_indices in Hz. apply in_flat_map in Hz.
  destruct Hz as [k [Hk Hz]]. apply in_seq in Hk.
  cbn [In] in Hz. lia.
Qed.

Lemma no_carriage_return_app (a b : string) :
  no_carriage_return a = true -> no_carriage_return b = true ->
  no_carriage_return (a ++ b) = true.
Proof.
  unfold no_carriage_return. intros Ha Hb.
  now rewrite string_forallb_app, Ha, Hb.
Qed.

Lemma one_line_no_carriage_return (s : string) :
  one_line s = true -> no_carriage_return s = true.
Proof.
  apply string_forallb_impl. intros c H. unfold not_line_end in H.
  now apply andb_true_iff in H.
Qed.

Lemma no_carriage_return_join {A : Type} (record : A -> string)
    (l : list A) :
  (forall a, In a l -> no_carriage_return (record a) = true) ->
  no_carriage_return (join (map record l)) = true.
Proof.
  induction l as [|a l IH]; intros Hl; [reflexivity|].
  cbn [map join fold_right]. apply no_carriage_return_app.
  - apply Hl. now left.
  - apply IH. intros; apply Hl; now right.
Qed.

Ltac no_cr :=
  repeat first
    [ reflexivity
    | assumption
    | apply one_line_no_carriage_return, one_line_format_int
    | apply one_line_no_carriage_return, is_token_one_line; assumption
    | apply no_carriage_return_app ].

Lemma written_text_no_carriage_return (comment : option string) :
  one_line (format_comment comment) = true ->
  no_carriage_return
    (ply_header comment (Z.of_nat m) (Z.of_nat m / 3)
     ++ join (map (vertex_record format_float vertices normals) (seq 0 m))
     ++ join (map face_record (seq 0 ((m + 2) / 3))))
  = true.
Proof.
  intros Hcomment. apply one_line_no_carriage_return in Hcomment.
  apply no_carriage_return_app; [unfold ply_header; no_cr|].
  apply no_carriage_return_app.
  - apply no_carriage_return_join. intros k Hk. apply in_seq in Hk.
    destruct (numbers_format (3 * k) ltac:(lia)) as [[T0 _] [T3 _]].
    destruct (numbers_format (3 * k + 1) ltac:(lia)) as [[T1 _] [T4 _]].
    destruct (numbers_format (3 * k + 2) ltac:(lia)) as [[T2 _] [T5 _]].
    unfold vertex_record. no_cr.
  - apply no_carriage_return_join. intros k _. unfold face_record. no_cr.
Qed.

(** The text that [writePLY] leaves in the file reads back. *)
Lemma written_text_read (comment : option string) :
  one_line (format_comment comment) = true ->
  readPLY py_int py_float np_float32 np_uint32 np_empty
          (ply_header comment (Z.of_nat m) (Z.of_nat m / 3)
           ++ join (map (vertex_record format_float vertices normals)
                        (seq 0 m))
           ++ join (map face_record (seq 0 ((m + 2) / 3))))
  = Return (map np_float32 vertices,
            map np_float32 (firstn (length vertices) normals),
            face_indices ((m / 3 + 2) / 3)).
Proof.
  intros Hcomment.
  unfold readPLY.
  rewrite universal_newlines_id
    by (apply written_text_no_carriage_return; exact Hcomment).
  unfold readPLY_body. unfold reader_bind at 1.
  rewrite read_header_written
    by (try exact Hcomment; apply Z.div_pos; lia).
  rewrite Nat2Z.id.
  change (map (fun key => (key, np_empty key m)) vertex_data_keys)
    with (vertex_data_after np_empty vertices normals m 0).
  unfold reader_bind at 1.
  rewrite (read_vertices_written m 0) by lia.
  cbn [Nat.add]. rewrite gather_written, reader_bind_lift.
  rewrite !thirds_firstn by lia.
  rewrite <- vertices_length, firstn_all.
  pose proof (Nat.div_mod_eq m 3) as Hm3.
  pose proof (Nat.mod_upper_bound m 3 ltac:(lia)) as Hr3.
  pose proof (Nat.div_mod_eq (m / 3 + 2) 3) as Hk3.
  pose proof (Nat.mod_upper_bound (m / 3 + 2) 3 ltac:(lia)) as Hkr.
  pose proof (Nat.div_mod_eq (m + 2) 3) as Hn3.
  pose proof (Nat.mod_upper_bound (m + 2) 3 ltac:(lia)) as Hnr.
  assert (Hnf : Z.to_nat (Z.of_nat m / 3) = (m / 3)%nat).
  { rewrite <- (Nat2Z.id (m / 3)). f_equal. now rewrite Nat2Z.inj_div. }
  rewrite <- (append_empty_r (join (map face_record (seq 0 ((m + 2) / 3))))).
  unfold reader_bind at 1.
  change (@nil string) with (face_strings 0).
  assert (Hpos : (0 <= Z.of_nat m / 3)%Z) by (apply Z.div_pos; lia).
  assert (H1 : (0 + (m / 3 + 2) / 3
                = (Z.to_nat (Z.of_nat m / 3) + 2) / 3)%nat)
    by (rewrite Hnf; reflexivity).
  assert (H2 : ((m / 3 + 2) / 3 <= Z.to_nat (Z.of_nat m / 3))%nat)
    by (rewrite Hnf; lia).
  assert (H3 : ((m / 3 + 2) / 3 <= (m + 2) / 3)%nat) by lia.
  rewrite (read_faces_written (Z.of_nat m / 3) ((m / 3 + 2) / 3) 0
             (Z.to_nat (Z.of_nat m / 3)) ((m + 2) / 3) EmptyString
             Hpos H1 H2 H3).
  rewrite Hnf. rewrite to_uint32_array_written by lia.
  reflexivity.
Qed.

(** X14. A file written by [writePLY] reads back: when the comment fits on
    one line and every number is written as a token that [float] reads back
    as that number, [readPLY] on the written text returns the positions and
    the normals of the vertices, cast to [float32].  The face indices it
    returns are those of the first [ceil(f / 3)] faces only, [f] being the
    face count of the header: its loop stops once it holds [f] indices, and
    every face line gives three. *)
Theorem readPLY_writePLY (comment : option string) :
  one_line (format_comment comment) = true ->
  readPLY py_int py_float np_float32 np_uint32 np_empty
          (snd (writePLY format_float vertices normals comment))
  = Return (map np_float32 vertices,
            map np_float32 (firstn (length vertices) normals),
            face_indices ((m / 3 + 2) / 3)).
Proof.
  intros Hcomment.
  rewrite (writePLY_closed format_float vertices normals comment m)
    by (try exact vertices_length; lia).
  cbn [snd]. now apply written_text_read.
Qed.

End RoundTrip.

(** Reading a written integer gives the integer back. *)
Lemma parse_int_format_int (z : Z) : parse_int (format_int z) = Return z.
Proof.
  unfold parse_int, format_int.
  rewrite DecimalString.NilZero.isi.
  - now rewrite DecimalZ.of_to.
  - intros H. pose proof (DecimalZ.of_to z) as Hz. rewrite H in Hz.
    cbn in Hz. subst z. discriminate H.
  - intros H. pose proof (DecimalZ.of_to z) as Hz. rewrite H in Hz.
    cbn in Hz. subst z. discriminate H.
Qed.

Lemma readPLY_writePLY_witness :
  readPLY parse_int parse_fraction (fun q => q) parse_int
          (fun _ n => repeat 0 n)
          (snd (writePLY format_fraction corner_triangle
                         [0; 0; 1; 0; 0; 1; 0; 0; 1] (Some "corner")))
  = Return (map (fun q => q) corner_triangle,
            map (fun q => q)
                (firstn (length corner_triangle) [0; 0; 1; 0; 0; 1; 0; 0; 1]),
            face_indices ((3 / 3 + 2) / 3)).
Proof.
  apply (readPLY_writePLY parse_int parse_fraction (fun q => q) parse_int
           (fun _ n => repeat 0 n)).
  - intros z _. apply parse_int_format_int.
  - reflexivity.
  - simpl. lia.
  - intros key n. apply repeat_length.
  - intros j Hj.
    do 9 (destruct j as [|j]; [vm_compute; repeat split; reflexivity|]).
    simpl in Hj. lia.
  - intros z _. apply parse_int_format_int.
  - reflexivity.
Defined.

(** ** [readPLY] on any file *)

Section AnyFile.

Variable py_int : string -> outcome Z.
Variable py_float : string -> outcome Q.
Variable np_float32 : Q -> Q.
Variable np_uint32 : string -> outcome Z.
Variable np_empty : string -> nat -> list Q.

(** Every pass of the gathering loop adds three positions and three
    normals. *)
Lemma gather_loop_length (vertex_data : list (string * list Q)) (n : nat) :
  forall (start : nat) (vertices normals vertices' normals' : list Q),
    loop_each (seq start n)
      (fun i lists =>
         let '(vertices, normals) := lists in
         x <== vertex_entry vertex_data "x" i ;;
         y <== vertex_entry vertex_data "y" i ;;
         z <== vertex_entry vertex_data "z" i ;;
         let vertices := (vertices ++ [x] ++ [y] ++ [z])%list in
         nx <== vertex_entry vertex_data "nx" i ;;
         ny <== vertex_entry vertex_data "ny" i ;;
         nz <== vertex_entry vertex_data "nz" i ;;
         let normals := (normals ++ [nx] ++ [ny] ++ [nz])%list in
         Return (vertices, normals))
      (vertices, normals) = Return (vertices', normals') ->
    length vertices' = (length vertices + 3 * n)%nat
    /\ length normals' = (length normals + 3 * n)%nat.
Proof.
  induction n as [|n IH]; intros start vertices normals vertices' normals' H.
  - cbn in H. injection H as <- <-. lia.
  - cbn [seq loop_each] in H. unfold outcome_bind at 1 in H.
    destruct (vertex_entry vertex_data "x" start) as [x|]; [|discriminate H].
    cbn [outcome_bind] in H.
    destruct (vertex_entry vertex_data "y" start) as [y|]; [|discriminate H].
    cbn [outcome_bind] in H.
    destruct (vertex_entry vertex_data "z" start) as [z|]; [|discriminate H].
    cbn [outcome_bind] in H.
    destruct (vertex_entry vertex_data "nx" start) as [nx|]; [|discriminate H].
    cbn [outcome_bind] in H.
    destruct (vertex_entry vertex_data "ny" start) as [ny|]; [|discriminate H].
    cbn [outcome_bind] in H.
    destruct (vertex_entry vertex_data "nz" start) as [nz|]; [|discriminate H].
    cbn [outcome_bind] in H.
    apply IH in H. rewrite !length_app in H. cbn [length] in H. lia.
Qed.

Lemma gather_length (vertex_data : list (string * list Q)) (n : nat)
    (vertices normals : list Q) :
  gather vertex_data n = Return (vertices, normals) ->
  length vertices = (3 * n)%nat /\ length normals = (3 * n)%nat.
Proof.
  intros H. apply gather_loop_length in H. cbn [length] in H. lia.
Qed.

(** X15. The face loop of [readPLY] ends: a pass either raises or adds
    three indices, so that a third of the missing indices, rounded up, is all
    the passes the loop can make, and allowing it more changes nothing.  The
    [num_faces] passes that [readPLY_body] allows are therefore never used
    up while the test of the loop holds. *)
Theorem read_faces_fuel (num_faces : Z) (fuel : nat) :
  forall (fuel' : nat) (faces : list string) (text : string),
    (num_faces - Z.of_nat (length faces) <= 3 * Z.of_nat fuel)%Z ->
    (fuel <= fuel')%nat ->
    read_faces fuel' num_faces faces text = read_faces fuel num_faces faces text.
Proof.
  induction fuel as [|fuel IH]; intros fuel' faces text Hfuel Hle.
  - assert (Htest : (Z.of_nat (length faces) <? num_faces)%Z = false)
      by (apply Z.ltb_ge; lia).
    destruct fuel'; cbn [read_faces]; rewrite Htest; reflexivity.
  - destruct fuel' as [|fuel']; [lia|].
    cbn [read_faces].
    destruct (Z.of_nat (length faces) <? num_faces)%Z; [|reflexivity].
    unfold reader_bind at 1. unfold reader_bind at 4.
    destruct (readline text) as [[line rest]|]; [|reflexivity].
    unfold reader_bind at 1. unfold reader_bind at 3.
    destruct (reader_lift _ rest) as [[i1 rest1]|]; [|reflexivity].
    unfold reader_bind at 1. unfold reader_bind at 2.
    destruct (reader_lift _ rest1) as [[i2 rest2]|]; [|reflexivity].
    unfold reader_bind.
    destruct (reader_lift _ rest2) as [[i3 rest3]|]; [|reflexivity].
    apply IH; [|lia].
    rewrite !length_app. cbn [length]. lia.
Qed.

(** When the face loop ends without an exception, it holds the indices of
    [ceil(num_faces / 3)] face lines. *)
Lemma read_faces_length (num_faces : Z) (fuel : nat) :
  forall (k : nat) (faces faces' : list string) (text rest : string),
    length faces = (3 * k)%nat ->
    (k <= (Z.to_nat num_faces + 2) / 3)%nat ->
    (Z.to_nat num_faces <= 3 * (k + fuel))%nat ->
    read_faces fuel num_faces faces text = Return (faces', rest) ->
    length faces' = (3 * ((Z.to_nat num_faces + 2) / 3))%nat.
Proof.
  induction fuel as [|fuel IH]; intros k faces faces' text rest Hk Hlow Hfuel H.
  - cbn [read_faces] in H.
    destruct (Z.ltb_spec (Z.of_nat (length faces)) num_faces) as [Hlt|Hge].
    + lia.
    + injection H as <- _.
      assert ((Z.to_nat num_faces + 2) / 3 < S k)%nat
        by (apply Nat.Div0.div_lt_upper_bound; lia).
      lia.
  - cbn [read_faces] in H.
    destruct (Z.ltb_spec (Z.of_nat (length faces)) num_faces) as [Hlt|Hge].
    + unfold reader_bind at 1 in H.
      destruct (readline text) as [[line rest0]|]; [|discriminate H].
      unfold reader_bind at 1 in H.
      destruct (reader_lift _ rest0) as [[i1 rest1]|]; [|discriminate H].
      unfold reader_bind at 1 in H.
      destruct (reader_lift _ rest1) as [[i2 rest2]|]; [|discriminate H].
      unfold reader_bind in H.
      destruct (reader_lift _ rest2) as [[i3 rest3]|]; [|discriminate H].
      apply (IH (S k)) in H; [exact H| | |].
      * rewrite !length_app. cbn [length]. lia.
      * apply Nat.div_le_lower_bound; lia.
      * lia.
    + injection H as <- _.
      assert ((Z.to_nat num_faces + 2) / 3 < S k)%nat
        by (apply Nat.Div0.div_lt_upper_bound; lia).
      lia.
Qed.

Lemma to_uint32_loop_length (faces : list string) :
  forall (array array' : list Z),
    loop_each faces
      (fun face array =>
         index <== np_uint32 face ;; Return (array ++ [index])%list)
      array = Return array' ->
    length array' = (length array + length faces)%nat.
Proof.
  induction faces as [|face faces IH]; intros array array' H.
  - cbn in H. injection H as <-. cbn. lia.
  - cbn [loop_each] in H. unfold outcome_bind at 1 2 in H.
    destruct (np_uint32 face) as [index|]; [|discriminate H].
    apply IH in H. rewrite length_app in H. cbn [length] in *. lia.
Qed.

Lemma to_uint32_array_length (faces : list string) (array : list Z) :
  to_uint32_array np_uint32 faces = Return array ->
  length array = length faces.
Proof.
  intros H. apply to_uint32_loop_length in H. exact H.
Qed.

(** One step of a computation on the open file that is known to return. *)
Ltac reader_step H :=
  unfold reader_bind at 1 in H;
  match type of H with
  | match ?m with _ => _ end = _ =>
      let E := fresh "E" in
      destruct m as [[? ?]|] eqn:E; [|discriminate H]
  end.

(** A header that is read through counts no negative number of vertices. *)
Lemma read_header_vertices (text rest : string) (num_vertices num_faces : Z)
    (vertex_data : list (string * list Q)) (attribute_indices : list string) :
  read_header py_int np_empty text
  = Return (num_vertices, vertex_data, attribute_indices, num_faces, rest) ->
  (0 <= num_vertices)%Z.
Proof.
  intros H. unfold read_header in H.
  do 6 reader_step H.
  reader_step H.
  unfold reader_lift, make_vertex_data in E5.
  destruct (Z.ltb_spec z 0) as [Hneg|Hpos]; [discriminate E5|].
  reader_step H. destruct p as [indices line].
  do 4 reader_step H.
  unfold reader_ret in H. injection H as <- _ _ _ _. exact Hpos.
Qed.

(** X16. Whatever the file holds, when [readPLY] returns it returns three
    positions and three normals for each vertex the header counts, and the
    indices of [ceil(f / 3)] face lines, [f] being the face count of the
    header. *)
Theorem readPLY_shape (file_text : string) (vertices normals : list Q)
    (faces : list Z) :
  readPLY py_int py_float np_float32 np_uint32 np_empty file_text
  = Return (vertices, normals, faces) ->
  exists (num_vertices num_faces : Z) (vertex_data : list (string * list Q))
         (attribute_indices : list string) (rest : string),
    read_header py_int np_empty (universal_newlines file_text)
    = Return (num_vertices, vertex_data, attribute_indices, num_faces, rest)
    /\ (0 <= num_vertices)%Z
    /\ length vertices = (3 * Z.to_nat num_vertices)%nat
    /\ length normals = (3 * Z.to_nat num_vertices)%nat
    /\ length faces = (3 * ((Z.to_nat num_faces + 2) / 3))%nat.
Proof.
  intros H. unfold readPLY in H.
  destruct (readPLY_body _ _ _ _ _ _) as [[mesh rest']|] eqn:Hbody;
    [|discriminate H].
  injection H as ->. unfold readPLY_body in Hbody.
  reader_step Hbody.
  destruct p as [[[num_vertices vertex_data] attribute_indices] num_faces].
  exists num_vertices, num_faces, vertex_data, attribute_indices, s.
  split; [reflexivity|].
  split; [exact (read_header_vertices _ _ _ _ _ _ E)|].
  reader_step Hbody.
  reader_step Hbody. destruct p as [positions directions].
  reader_step Hbody.
  reader_step Hbody.
  unfold reader_ret in Hbody. injection Hbody as <- <- <- _.
  unfold reader_lift in E1.
  destruct (gather _ _) as [[positions' directions']|] eqn:Hgather;
    [|discriminate E1].
  injection E1 as -> -> _.
  apply gather_length in Hgather. destruct Hgather as [Hv Hn].
  unfold reader_lift in E3.
  destruct (to_uint32_array _ _) as [array|] eqn:Harray; [|discriminate E3].
  injection E3 as -> _.
  apply to_uint32_array_length in Harray.
  apply (read_faces_length _ _ 0) in E2; [|reflexivity|lia|lia].
  rewrite !length_map. repeat split; congruence.
Qed.

End AnyFile.

Lemma read_faces_fuel_witness :
  read_faces 5 4 [] (snd (writePLY format_fraction corner_triangle
                                   [0; 0; 1; 0; 0; 1; 0; 0; 1] None))
  = read_faces 2 4 [] (snd (writePLY format_fraction corner_triangle
                                     [0; 0; 1; 0; 0; 1; 0; 0; 1] None)).
Proof.
  apply (read_faces_fuel 4 2 5); [simpl; lia | lia].
Defined.

Lemma readPLY_shape_witness :
  exists (num_vertices num_faces : Z) (vertex_data : list (string * list Q))
         (attribute_indices : list string) (rest : string),
    read_header parse_int (fun _ n => repeat 0 n)
      (universal_newlines
         (snd (writePLY format_fraction corner_triangle
                        [0; 0; 1; 0; 0; 1; 0; 0; 1] None)))
    = Return (num_vertices, vertex_data, attribute_indices, num_faces, rest)
    /\ (0 <= num_vertices)%Z
    /\ length corner_triangle = (3 * Z.to_nat num_vertices)%nat
    /\ length [0; 0; 1; 0; 0; 1; 0; 0; 1] = (3 * Z.to_nat num_vertices)%nat
    /\ length [0; 1; 2]%Z = (3 * ((Z.to_nat num_faces + 2) / 3))%nat.
Proof.
  apply (readPLY_shape parse_int parse_fraction (fun q => q) parse_int
           (fun _ n => repeat 0 n)
           (snd (writePLY format_fraction corner_triangle
                          [0; 0; 1; 0; 0; 1; 0; 0; 1] None))
           corner_triangle [0; 0; 1; 0; 0; 1; 0; 0; 1] [0; 1; 2]%Z).
  vm_compute. reflexivity.
Defined.

(** ** From the field to the viewer *)






